(** * chat-analyser: the retrieval, filtering and prompt pipeline, and the chat-log parser

    A shallow embedding of [src/chatgpt_test.py] (class [RAGSystem]) and of
    [src/weviate_trial.py] ([WhatsAppChatIndexer.parse_message]).

    Conventions of the embedding.
    - A Python [str] is a [string]; every [ascii] is read as the code point of
      the same number, so the strings covered are those over U+0000..U+00FF.
      On that range [str.lower], [str.isspace], [\s] and [\d] are the tables
      written out in [PyStr].
    - A Python [float] is a [spec_float] (IEEE 754 binary64 values with their
      comparison, NaN included).
    - A Python [int] is a [Z].
    - A [dict] with string keys is a [gmap string _].
    - The external services (embedding model, vector store, completion API)
      are fields of a record of capabilities; the vector store and the
      completion API may raise. *)

From Stdlib Require Import ZArith List String Ascii Bool Lia.
From Stdlib Require Import Sorting.Sorted Sorting.Permutation.
From Stdlib Require Import Floats.SpecFloat.
From stdpp Require Import gmap strings.

Open Scope string_scope.

#[local] Arguments String.append : simpl nomatch.

(** ** Python string operations *)

Module PyStr.

(** Code point of a character. *)
Definition ord (c : ascii) : N := N_of_ascii c.

(** [str.isspace] on one character: U+0009..U+000D, U+001C..U+0020, U+0085
    and U+00A0.  The same table decides [\s] of [re] on [str] patterns and
    the separators of [str.split()] and [str.strip()]. *)
Definition isspace (c : ascii) : bool :=
  let n := ord c in
  ((9 <=? n) && (n <=? 13) || (28 <=? n) && (n <=? 32)
   || (n =? 133) || (n =? 160))%N.

(** [\d] of [re]: the decimal digits; below U+0100 these are [0-9]. *)
Definition isdigit (c : ascii) : bool :=
  let n := ord c in ((48 <=? n) && (n <=? 57))%N.

(** [str.lower] on one character: A-Z and U+00C0..U+00DE except U+00D7 move
    up by 32, every other character is unchanged. *)
Definition lower_char (c : ascii) : ascii :=
  let n := ord c in
  if ((65 <=? n) && (n <=? 90)
      || (192 <=? n) && (n <=? 222) && negb (n =? 215))%N
  then ascii_of_N (n + 32) else c.

(** [s.lower()] *)
Fixpoint lower (s : string) : string :=
  match s with
  | EmptyString => EmptyString
  | String c s' => String (lower_char c) (lower s')
  end.

(** [c in chars] for a one-character [c]. *)
Fixpoint char_in (c : ascii) (chars : string) : bool :=
  match chars with
  | EmptyString => false
  | String d r => Ascii.eqb c d || char_in c r
  end.

(** Removal of the longest suffix, resp. prefix, made of characters that
    satisfy [p]. *)
Fixpoint rstrip_by (p : ascii -> bool) (s : string) : string :=
  match s with
  | EmptyString => EmptyString
  | String c s' =>
      match rstrip_by p s' with
      | EmptyString => if p c then EmptyString else String c EmptyString
      | r => String c r
      end
  end.

Fixpoint lstrip_by (p : ascii -> bool) (s : string) : string :=
  match s with
  | EmptyString => EmptyString
  | String c s' => if p c then lstrip_by p s' else s
  end.

(** [s.rstrip(chars)] *)
Definition rstrip (chars : string) (s : string) : string :=
  rstrip_by (fun c => char_in c chars) s.

(** [s.strip()] *)
Definition strip (s : string) : string :=
  lstrip_by isspace (rstrip_by isspace s).

(** [s.startswith(p)] *)
Definition startswith (s p : string) : bool := String.prefix p s.

(** [sub in s] *)
Fixpoint contains (sub s : string) : bool :=
  String.prefix sub s ||
  match s with
  | EmptyString => false
  | String _ s' => contains sub s'
  end.

(** [s.replace(old, new)] for a non-empty [old]: scan from the left, an
    occurrence is replaced and the scan resumes behind it ([skip] counts the
    characters of the occurrence still to be passed over). *)
Fixpoint replace_from (old new : string) (skip : nat) (s : string) : string :=
  match s with
  | EmptyString => EmptyString
  | String c s' =>
      match skip with
      | S k => replace_from old new k s'
      | O =>
          if String.prefix old s
          then new +:+ replace_from old new (String.length old - 1) s'
          else String c (replace_from old new 0 s')
      end
  end.

(** With an empty [old], Python puts [new] before every character and at
    the end. *)
Fixpoint intersperse_all (new s : string) : string :=
  match s with
  | EmptyString => new
  | String c s' => new +:+ String c (intersperse_all new s')
  end.

(** [s.replace(old, new)] *)
Definition replace (old new s : string) : string :=
  match old with
  | EmptyString => intersperse_all new s
  | _ => replace_from old new 0 s
  end.

(** Puts [c] in front of the first word of a list of words. *)
Definition cons_head (c : ascii) (ws : list string) : list string :=
  match ws with
  | [] => [String c EmptyString]
  | w :: r => String c w :: r
  end.

(** [s.split()]: the maximal runs of non-whitespace characters. *)
Fixpoint split (s : string) : list string :=
  match s with
  | EmptyString => []
  | String c s' =>
      if isspace c then split s'
      else match s' with
           | EmptyString => [String c EmptyString]
           | String c' _ =>
               if isspace c' then String c EmptyString :: split s'
               else cons_head c (split s')
           end
  end.

(** [sep.join(l)] *)
Fixpoint join (sep : string) (l : list string) : string :=
  match l with
  | [] => EmptyString
  | [x] => x
  | x :: r => x +:+ sep +:+ join sep r
  end.

(** [s[:n]] and [s[n:]] for [n >= 0]. *)
Fixpoint take (n : nat) (s : string) : string :=
  match n, s with
  | S k, String c s' => String c (take k s')
  | _, _ => EmptyString
  end.

Fixpoint drop (n : nat) (s : string) : string :=
  match n, s with
  | S k, String _ s' => drop k s'
  | _, _ => s
  end.

(** [all(p(c) for c in s)] *)
Fixpoint all_chars (p : ascii -> bool) (s : string) : bool :=
  match s with
  | EmptyString => true
  | String c s' => p c && all_chars p s'
  end.

(** The last character of a string. *)
Fixpoint last_char (s : string) : option ascii :=
  match s with
  | EmptyString => None
  | String c s' =>
      match last_char s' with
      | None => Some c
      | Some d => Some d
      end
  end.

(** A non-empty string without whitespace at either end. *)
Definition trimmed (s : string) : bool :=
  match s, last_char s with
  | String c _, Some d => negb (isspace c) && negb (isspace d)
  | _, _ => false
  end.

(** Value of a decimal digit. *)
Definition digit_value (c : ascii) : Z := Z.of_N (ord c) - 48.

(** The character of a decimal digit [0 <= d <= 9]. *)
Definition digit_char (d : Z) : ascii := ascii_of_N (Z.to_N (48 + d)).

(** ["%02d" % n] and ["%04d" % n] for [0 <= n] below 100, resp. 10000. *)
Definition pad2 (n : Z) : string :=
  String (digit_char (n / 10)) (String (digit_char (n mod 10)) EmptyString).
Definition pad4 (n : Z) : string := pad2 (n / 100) +:+ pad2 (n mod 100).

End PyStr.

(** ** The informativeness filter *)

(** [reference_phrases] of [is_informative_content]. *)
Definition reference_phrases : list string := ["like"; "similar to"; "same as"].

(** [RAGSystem.is_informative_content(text, query)] *)
Definition is_informative_content (text query : string) : bool :=
  let text_lower := PyStr.lower text in
  let query_lower := PyStr.rstrip "?" (PyStr.lower query) in
  let cleaned_text := PyStr.strip (PyStr.replace query_lower "" text_lower) in
  if (length (PyStr.split cleaned_text) <? 5)%nat then false
  else if PyStr.startswith text_lower query_lower && PyStr.contains "?" text
  then false
  else if existsb (fun phrase => PyStr.contains phrase cleaned_text
                                 && (length (PyStr.split cleaned_text) <? 10)%nat)
                  reference_phrases
  then false
  else true.

(** [cleaned_text] before its [strip()]: the lower-cased text without the
    occurrences of the normalised query. *)
Definition residual (text query : string) : string :=
  PyStr.replace (PyStr.rstrip "?" (PyStr.lower query)) "" (PyStr.lower text).

(** [is_informative_content] with [str.lower] as a parameter: the same
    method for any alphabet and its lower-casing. *)
Definition is_informative_on (lower : string -> string) (text query : string)
  : bool :=
  let text_lower := lower text in
  let query_lower := PyStr.rstrip "?" (lower query) in
  let cleaned_text := PyStr.strip (PyStr.replace query_lower "" text_lower) in
  if (length (PyStr.split cleaned_text) <? 5)%nat then false
  else if PyStr.startswith text_lower query_lower && PyStr.contains "?" text
  then false
  else if existsb (fun phrase => PyStr.contains phrase cleaned_text
                                 && (length (PyStr.split cleaned_text) <? 10)%nat)
                  reference_phrases
  then false
  else true.

(** ** A second alphabet: the Latin/Greek page *)

(** Here an [ascii] is read as the character that the codec [iso8859_7]
    gives to the same byte: U+0000..U+00A0 as before, 0xC1..0xD9 the Greek
    capitals (0xC1 is capital alpha, 0xD3 capital sigma), 0xE1..0xF9 the
    small letters (0xE1 alpha, 0xF2 final sigma, 0xF3 sigma).  The
    whitespace of this page is the whitespace of [PyStr.isspace], and
    [str.lower] stays within the page. *)
Module GreekPage.

Definition capital_alpha : ascii := ascii_of_nat 193.
Definition capital_sigma : ascii := ascii_of_nat 211.
Definition small_alpha : ascii := ascii_of_nat 225.
Definition final_sigma : ascii := ascii_of_nat 242.
Definition small_sigma : ascii := ascii_of_nat 243.

Definition between (a b n : N) : bool := ((a <=? n) && (n <=? b))%N.

(** The lower-case mapping of one character other than capital sigma. *)
Definition lower_char (c : ascii) : ascii :=
  let n := PyStr.ord c in
  if between 65 90 n then ascii_of_N (n + 32)           (* A-Z *)
  else if (n =? 182)%N then ascii_of_N 220              (* alpha with tonos *)
  else if between 184 186 n then ascii_of_N (n + 37)    (* epsilon, eta, iota with tonos *)
  else if (n =? 188)%N then ascii_of_N 252              (* omicron with tonos *)
  else if between 190 191 n then ascii_of_N (n + 63)    (* upsilon, omega with tonos *)
  else if between 193 209 n then ascii_of_N (n + 32)    (* alpha to rho *)
  else if between 212 219 n then ascii_of_N (n + 32)    (* tau to upsilon with dialytika *)
  else c.

(** The characters with the property Cased, and those with the property
    Case_Ignorable, of this page. *)
Definition cased (c : ascii) : bool :=
  let n := PyStr.ord c in
  between 65 90 n || between 97 122 n || (n =? 182)%N || between 184 186 n
  || (n =? 188)%N || between 190 191 n || between 192 209 n
  || between 211 254 n.

Definition case_ignorable (c : ascii) : bool :=
  let n := PyStr.ord c in
  (n =? 39)%N || (n =? 46)%N || (n =? 58)%N || (n =? 94)%N || (n =? 96)%N
  || between 161 162 n || (n =? 168)%N || (n =? 170)%N || (n =? 173)%N
  || between 180 181 n || (n =? 183)%N.

(** The first character of [s] that is not case-ignorable. *)
Fixpoint first_not_ignorable (s : string) : option ascii :=
  match s with
  | EmptyString => None
  | String c s' => if case_ignorable c then first_not_ignorable s' else Some c
  end.

(** The context Final_Sigma of a capital sigma: a cased character before it
    and none behind it, case-ignorable characters apart.  [before] is what
    precedes the sigma, nearest character first. *)
Definition in_final_position (before after : string) : bool :=
  match first_not_ignorable before with
  | Some b =>
      cased b && match first_not_ignorable after with
                 | Some a => negb (cased a)
                 | None => true
                 end
  | None => false
  end.

(** [s.lower()], scanning [s] with what was passed in [before]. *)
Fixpoint lower_from (before s : string) : string :=
  match s with
  | EmptyString => EmptyString
  | String c s' =>
      String (if Ascii.eqb c capital_sigma
              then (if in_final_position before s'
                    then final_sigma else small_sigma)
              else lower_char c)
             (lower_from (String c before) s')
  end.

Definition lower (s : string) : string := lower_from EmptyString s.

(** [RAGSystem.is_informative_content(text, query)] on this page. *)
Definition is_informative_content (text query : string) : bool :=
  is_informative_on lower text query.

(** A question that starts with capital alpha, capital sigma, capital alpha,
    and the query made of the first two of these letters. *)
Definition example_query : string :=
  String capital_alpha (String capital_sigma EmptyString).

Definition example_text : string :=
  String capital_alpha (String capital_sigma (String capital_alpha
    "? one two three four five")).

End GreekPage.

(** ** The rules of the filter as the specification words them *)

Module FilterRules.

(** The two readings of "strip a trailing [?]": one character, or all. *)
Fixpoint strip_one_question (q : string) : string :=
  match q with
  | EmptyString => EmptyString
  | String c EmptyString => if Ascii.eqb c "?" then EmptyString else q
  | String c q' => String c (strip_one_question q')
  end.

Definition strip_every_question (q : string) : string := PyStr.rstrip "?" q.

(** Number of whitespace-separated tokens: the positions where a word
    starts.  [in_word] tells whether the previous character was in a word. *)
Fixpoint token_count_from (in_word : bool) (s : string) : nat :=
  match s with
  | EmptyString => 0
  | String c s' =>
      if PyStr.isspace c then token_count_from false s'
      else (if in_word then 0 else 1) + token_count_from true s'
  end.

Definition token_count (s : string) : nat := token_count_from false s.

Inductive verdict : Type :=
| Accept
| Reject (rule : nat).

(** The readings of rule 4: "the original text" against "the query
    string" as it was given, the original text against the query of rule 1,
    or the lower-cased text of rule 1 against the query of rule 1. *)
Inductive rule4_text : Type :=
| OriginalTextAndQuery
| OriginalText
| LowerCasedText.

(** Rules 1 to 6 in order; [normalise] is the treatment of the trailing [?]
    in rule 1 and [subject] the text and the query that rule 4 compares. *)
Definition apply_rules (normalise : string -> string) (subject : rule4_text)
           (text query : string) : verdict :=
  (* 1 *)
  let text1 := PyStr.lower text in
  let query1 := normalise (PyStr.lower query) in
  (* 2 *)
  let residual :=
    if PyStr.contains query1 text1 then PyStr.replace query1 "" text1
    else text1 in
  (* 3 *)
  if (token_count residual <? 5)%nat then Reject 3
  (* 4 *)
  else if match subject with
          | OriginalTextAndQuery => PyStr.startswith text query
          | OriginalText => PyStr.startswith text query1
          | LowerCasedText => PyStr.startswith text1 query1
          end
          && PyStr.contains "?" text
  then Reject 4
  (* 5 *)
  else if existsb (fun phrase => PyStr.contains phrase residual) reference_phrases
          && (token_count residual <? 10)%nat
  then Reject 5
  (* 6 *)
  else Accept.

Definition is_informative (normalise : string -> string) (subject : rule4_text)
           (text query : string) : bool :=
  match apply_rules normalise subject text query with
  | Accept => true
  | Reject _ => false
  end.

End FilterRules.

(** ** Floats and their order *)

Module PyFloat.

(** [a <= b] and [a < b] on Python floats. *)
Definition le (a b : spec_float) : bool := SFleb a b.
Definition lt (a b : spec_float) : bool := SFltb a b.

Definition is_nan (a : spec_float) : bool :=
  match a with S754_nan => true | _ => false end.

(** The literal [0.75], that is 6755399441055744 * 2^-53. *)
Definition f0_75 : spec_float := S754_finite false 6755399441055744 (-53).

(** The literals [0.25], [0.5] and [1.0], used in the examples. *)
Definition f0_25 : spec_float := S754_finite false 4503599627370496 (-54).
Definition f0_5 : spec_float := S754_finite false 4503599627370496 (-53).
Definition f1_0 : spec_float := S754_finite false 4503599627370496 (-52).

End PyFloat.

(** ** Lists: [sorted] and slices *)

Module PyList.

Section Sorting.
Context {A : Type} (key : A -> spec_float).

(** One step of the insertion: [x] goes behind every element that is not
    greater than it, so equal keys keep their order. *)
Fixpoint insert_by (x : A) (l : list A) : list A :=
  match l with
  | [] => [x]
  | y :: r =>
      if PyFloat.lt (key x) (key y) then x :: y :: r
      else y :: insert_by x r
  end.

(** [sorted(l, key=key)]: the stable sort that compares keys with [<], as
    an insertion sort from the left.  When no key is NaN, [<] is a strict
    weak order and the result of a stable sort does not depend on the
    algorithm; the lists that the pipeline sorts have passed the threshold
    test, which no NaN passes. *)
Definition sorted (l : list A) : list A :=
  fold_left (fun acc x => insert_by x acc) l [].
End Sorting.

(** [l[:stop]] *)
Definition slice_to {A : Type} (stop : Z) (l : list A) : list A :=
  let n := Z.of_nat (length l) in
  let k := if (stop <? 0)%Z then Z.max 0 (stop + n) else Z.min stop n in
  firstn (Z.to_nat k) l.

(** Keys in non-decreasing order: every element is [<=] every later one. *)
Definition nondecreasing {A : Type} (key : A -> spec_float) (l : list A) : Prop :=
  StronglySorted (fun a b => PyFloat.le (key a) (key b) = true) l.

End PyList.

(** ** Exceptions and the effects of the pipeline *)

Inductive exn : Type :=
| KeyError (key : string)
| ValueError (msg : string)
| ExternalError (msg : string).

Inductive result (A : Type) : Type :=
| Ok (a : A)
| Raise (e : exn).
Arguments Ok {A} a.
Arguments Raise {A} e.

(** What the pipeline does to the outside world, in order. *)
Inductive event : Type :=
| EvNearVector (near_vector : list spec_float) (limit : Z)
               (return_properties : list string)
| EvCompletion (prompt : string)
| EvPrint (line : string)
| EvClose.

(** A computation reads the trace so far and returns a value or raises,
    together with the extended trace. *)
Definition M (A : Type) : Type := list event -> result A * list event.

Definition ret {A : Type} (a : A) : M A := fun t => (Ok a, t).

Definition bind {A B : Type} (m : M A) (k : A -> M B) : M B :=
  fun t => match m t with
           | (Ok a, t') => k a t'
           | (Raise e, t') => (Raise e, t')
           end.

Definition lift {A : Type} (r : result A) : M A := fun t => (r, t).

Definition emit (e : event) : M unit := fun t => (Ok tt, (t ++ [e])%list).

(** [try: body finally: handler]: the handler runs on both exits, and the
    exit of the body is kept unless the handler raises. *)
Definition try_finally {A : Type} (body : M A) (handler : M unit) : M A :=
  fun t => match body t with
           | (r, t') => match handler t' with
                        | (Ok _, t'') => (r, t'')
                        | (Raise e, t'') => (Raise e, t'')
                        end
           end.

Declare Scope pipeline_scope.
Delimit Scope pipeline_scope with pipeline.
Notation "x <- m ;; k" := (bind m (fun x => k))
  (at level 100, m at next level, right associativity) : pipeline_scope.
Notation "m ;;; k" := (bind m (fun _ => k))
  (at level 100, right associativity) : pipeline_scope.

(** ** The retrieval pipeline *)

(** An object of a vector-store response: [doc.properties] and
    [doc.metadata.distance]. *)
Record Metadata : Type := { distance : spec_float }.
Record Doc : Type := { properties : gmap string string; metadata : Metadata }.

(** The state of a [RAGSystem] that the methods read: the three clients and
    the name of the embedded field. *)
Record RAGSystem : Type := {
  (** [self.model.encode(text).tolist()] *)
  encode : string -> list spec_float;
  (** [self.collection.query.near_vector(near_vector, limit,
      return_metadata=["distance"], return_properties).objects] *)
  near_vector : list spec_float -> Z -> list string -> result (list Doc);
  (** [self.openai_client.chat.completions.create(...).choices[0].message.content]
      for the user message [prompt] *)
  chat_completion : string -> result string;
  embedding_field : string
}.

Section Pipeline.
Variable self : RAGSystem.
Local Open Scope pipeline_scope.

(** [doc.properties[self.embedding_field]] *)
Definition content_of (doc : Doc) : result string :=
  match properties doc !! embedding_field self with
  | Some text => Ok text
  | None => Raise (KeyError (embedding_field self))
  end.

(** [doc.metadata.distance] *)
Definition doc_distance (doc : Doc) : spec_float := distance (metadata doc).

(** The list comprehension of [retrieve_relevant_context]: the property is
    looked up only for a document within the threshold. *)
Fixpoint filter_results (query : string) (distance_threshold : spec_float)
         (objects : list Doc) : result (list Doc) :=
  match objects with
  | [] => Ok []
  | doc :: rest =>
      if PyFloat.le (doc_distance doc) distance_threshold then
        match content_of doc with
        | Raise e => Raise e
        | Ok text =>
            match filter_results query distance_threshold rest with
            | Raise e => Raise e
            | Ok kept =>
                Ok (if is_informative_content text query
                    then doc :: kept else kept)
            end
        end
      else filter_results query distance_threshold rest
  end.

(** The condition of that comprehension on a document that has the
    property. *)
Definition kept (query : string) (distance_threshold : spec_float) (doc : Doc)
  : bool :=
  PyFloat.le (doc_distance doc) distance_threshold
  && match content_of doc with
     | Ok text => is_informative_content text query
     | Raise _ => false
     end.

(** [RAGSystem.retrieve_relevant_context(query, limit, distance_threshold)] *)
Definition retrieve_relevant_context (query : string) (limit : Z)
           (distance_threshold : spec_float) : M (list Doc) :=
  let query_embedding := encode self query in
  let initial_limit := 100%Z in
  emit (EvNearVector query_embedding initial_limit [embedding_field self]) ;;;
  objects <- lift (near_vector self query_embedding initial_limit
                               [embedding_field self]) ;;
  filtered_results <- lift (filter_results query distance_threshold objects) ;;
  ret (PyList.slice_to limit (PyList.sorted doc_distance filtered_results)).

(** The default arguments [limit=7] and [distance_threshold=0.75]. *)
Definition default_limit : Z := 7.
Definition default_distance_threshold : spec_float := PyFloat.f0_75.

(** [[doc.properties[self.embedding_field] for doc in docs]] *)
Fixpoint contents_of (docs : list Doc) : result (list string) :=
  match docs with
  | [] => Ok []
  | doc :: rest =>
      match content_of doc with
      | Raise e => Raise e
      | Ok text =>
          match contents_of rest with
          | Raise e => Raise e
          | Ok texts => Ok (text :: texts)
          end
      end
  end.

Definition nl : string := String (ascii_of_nat 10) EmptyString.

(** The f-string of [generate_prompt]. *)
Definition prompt_template (context_str query : string) : string :=
  "Please answer the question based on the following context:" +:+ nl +:+ nl
  +:+ "Context:" +:+ nl
  +:+ context_str +:+ nl +:+ nl
  +:+ "Question: " +:+ query +:+ nl +:+ nl
  +:+ "Please provide a detailed answer using only the information from the given context. The provided context is the Whatsapp chats between Shashank Hegde and Shashin Bhaskar. If the context doesn't contain enough information to answer the question, please state that explicitly.".

(** [RAGSystem.generate_prompt(query, context)] *)
Definition generate_prompt (query : string) (context : list Doc)
  : result string :=
  let sorted_contexts := PyList.sorted doc_distance context in
  match contents_of sorted_contexts with
  | Raise e => Raise e
  | Ok texts => Ok (prompt_template (PyStr.join (nl +:+ nl) texts) query)
  end.

(** [RAGSystem.get_completion(prompt)] *)
Definition get_completion (prompt : string) : M string :=
  emit (EvCompletion prompt) ;;;
  lift (chat_completion self prompt).

Definition no_context_message : string :=
  "I couldn't find any relevant information to answer your question.".

(** [RAGSystem.query(user_query)] *)
Definition query (user_query : string) : M string :=
  try_finally
    (relevant_docs <- retrieve_relevant_context user_query default_limit
                                                default_distance_threshold ;;
     match relevant_docs with
     | [] => ret no_context_message
     | _ :: _ =>
         prompt <- lift (generate_prompt user_query relevant_docs) ;;
         emit (EvPrint ("Prompt " +:+ prompt)) ;;;
         response <- get_completion prompt ;;
         ret response
     end)
    (emit EvClose).
End Pipeline.

(** A vector store with four messages and a completion API with one
    answer, for the examples. *)
Definition example_doc (text : string) (d : spec_float) : Doc :=
  {| properties := {[ "content" := text ]}; metadata := {| distance := d |} |}.

Definition example_objects : list Doc :=
  [ example_doc "it rained heavily all night and flooded the street" PyFloat.f0_5;
    example_doc "yes" PyFloat.f0_25;
    example_doc "the weather was dry and sunny for the whole week" PyFloat.f0_25;
    example_doc "far away there is a very different topic" PyFloat.f1_0 ].

Definition example_system : RAGSystem :=
  {| encode := fun _ => [];
     near_vector := fun _ _ _ => Ok example_objects;
     chat_completion := fun _ => Ok "It rained all night.";
     embedding_field := "content" |}.

(** A store without any message. *)
Definition example_empty_store : RAGSystem :=
  {| encode := fun _ => [];
     near_vector := fun _ _ _ => Ok [];
     chat_completion := fun _ => Ok "It rained all night.";
     embedding_field := "content" |}.

(** What the retriever returns on the example store for the query
    ["is it raining"]. *)
Definition example_retrieved : list Doc :=
  [ example_doc "the weather was dry and sunny for the whole week" PyFloat.f0_25;
    example_doc "it rained heavily all night and flooded the street" PyFloat.f0_5 ].

(** A store whose closest object has no ["content"] and whose farthest has
    none either. *)
Definition example_objects_unkeyed : list Doc :=
  [ example_doc "it rained heavily all night and flooded the street" PyFloat.f0_5;
    {| properties := {[ "sender" := "Alice Smith" ]};
       metadata := {| distance := PyFloat.f0_25 |} |};
    {| properties := {[ "sender" := "Bob" ]};
       metadata := {| distance := PyFloat.f1_0 |} |} ].

Definition example_store_unkeyed : RAGSystem :=
  {| encode := fun _ => [];
     near_vector := fun _ _ _ => Ok example_objects_unkeyed;
     chat_completion := fun _ => Ok "It rained all night.";
     embedding_field := "content" |}.

(** The same store behind a failing connection, and the same system with a
    failing completion API. *)
Definition example_store_down : RAGSystem :=
  {| encode := fun _ => [];
     near_vector := fun _ _ _ => Raise (ExternalError "connection refused");
     chat_completion := fun _ => Ok "It rained all night.";
     embedding_field := "content" |}.

Definition example_api_down : RAGSystem :=
  {| encode := fun _ => [];
     near_vector := fun _ _ _ => Ok example_objects;
     chat_completion := fun _ => Raise (ExternalError "rate limit exceeded");
     embedding_field := "content" |}.

(** ** Regular expressions made of repeated character classes *)

Module Re.

(** One piece [cls{lo,hi}] of a pattern; [hi = None] is no upper bound.  A
    single character or class is [cls{1,1}], [cls+] is [cls{1,}]. *)
Record item : Type := { cls : ascii -> bool; lo : nat; hi : option nat }.

Definition one (p : ascii -> bool) : item := {| cls := p; lo := 1; hi := Some 1 |}.
Definition lit (c : ascii) : item := one (Ascii.eqb c).
Definition rep (p : ascii -> bool) (m n : nat) : item :=
  {| cls := p; lo := m; hi := Some n |}.
Definition plus (p : ascii -> bool) : item := {| cls := p; lo := 1; hi := None |}.

(** Length of the longest prefix of [s] made of characters of the class. *)
Fixpoint run_length (p : ascii -> bool) (s : string) : nat :=
  match s with
  | EmptyString => 0
  | String c s' => if p c then S (run_length p s') else 0
  end.

(** The most characters a greedy [it] can take at the front of [s]. *)
Definition greedy_length (it : item) (s : string) : nat :=
  match hi it with
  | Some h => Nat.min h (run_length (cls it) s)
  | None => run_length (cls it) s
  end.

(** The attempts of one greedy piece: [n] characters, then the rest of the
    pattern by [continue]; when that fails, one character less, as long as
    [lo] characters remain. *)
Fixpoint attempt (continue : string -> option (list string)) (lo : nat)
         (s : string) (n : nat) : option (list string) :=
  match continue (PyStr.drop n s) with
  | Some chunks => Some (PyStr.take n s :: chunks)
  | None =>
      match n with
      | O => None
      | S n' => if (lo <=? n')%nat then attempt continue lo s n' else None
      end
  end.

(** [re.match] for a sequence of pieces: each piece is greedy, and gives
    back one character at a time when the rest of the pattern fails.  The
    result is the text taken by each piece. *)
Fixpoint match_seq (items : list item) (s : string) : option (list string) :=
  match items with
  | [] => Some []
  | it :: rest =>
      if (greedy_length it s <? lo it)%nat then None
      else attempt (match_seq rest) (lo it) s (greedy_length it s)
  end.

(** A text that one piece can take. *)
Definition conforms (it : item) (c : string) : Prop :=
  PyStr.all_chars (cls it) c = true
  /\ (lo it <= String.length c)%nat
  /\ forall h, hi it = Some h -> (String.length c <= h)%nat.

End Re.

(** ** [datetime.strptime] with the format of the chat export *)

Record datetime : Type := {
  year : Z; month : Z; day : Z; hour : Z; minute : Z
}.

Module Strptime.

Import PyStr.

Definition in_range (a b c : ascii) : bool := ((ord a <=? ord c) && (ord c <=? ord b))%N.

(** [%m]: [1[0-2]|0[1-9]|[1-9]] *)
Definition directive_m (s : string) : option (Z * string) :=
  match s with
  | String c1 (String c2 r) =>
      if Ascii.eqb c1 "1" && in_range "0" "2" c2 then Some (10 + digit_value c2, r)
      else if Ascii.eqb c1 "0" && in_range "1" "9" c2 then Some (digit_value c2, r)
      else if in_range "1" "9" c1 then Some (digit_value c1, String c2 r)
      else None
  | String c1 EmptyString =>
      if in_range "1" "9" c1 then Some (digit_value c1, EmptyString) else None
  | EmptyString => None
  end%Z.

(** [%d]: [3[01]|[12]\d|0[1-9]|[1-9]| [1-9]] *)
Definition directive_d (s : string) : option (Z * string) :=
  match s with
  | String c1 (String c2 r) =>
      if Ascii.eqb c1 "3" && in_range "0" "1" c2 then Some (30 + digit_value c2, r)
      else if in_range "1" "2" c1 && isdigit c2
           then Some (10 * digit_value c1 + digit_value c2, r)
      else if Ascii.eqb c1 "0" && in_range "1" "9" c2 then Some (digit_value c2, r)
      else if in_range "1" "9" c1 then Some (digit_value c1, String c2 r)
      else if Ascii.eqb c1 " " && in_range "1" "9" c2 then Some (digit_value c2, r)
      else None
  | String c1 EmptyString =>
      if in_range "1" "9" c1 then Some (digit_value c1, EmptyString) else None
  | EmptyString => None
  end%Z.

(** [%y]: [\d\d] *)
Definition directive_y (s : string) : option (Z * string) :=
  match s with
  | String c1 (String c2 r) =>
      if isdigit c1 && isdigit c2
      then Some (10 * digit_value c1 + digit_value c2, r) else None
  | _ => None
  end%Z.

(** [%H]: [2[0-3]|[0-1]\d|\d] *)
Definition directive_H (s : string) : option (Z * string) :=
  match s with
  | String c1 (String c2 r) =>
      if Ascii.eqb c1 "2" && in_range "0" "3" c2 then Some (20 + digit_value c2, r)
      else if in_range "0" "1" c1 && isdigit c2
           then Some (10 * digit_value c1 + digit_value c2, r)
      else if isdigit c1 then Some (digit_value c1, String c2 r)
      else None
  | String c1 EmptyString =>
      if isdigit c1 then Some (digit_value c1, EmptyString) else None
  | EmptyString => None
  end%Z.

(** [%M]: [[0-5]\d|\d] *)
Definition directive_M (s : string) : option (Z * string) :=
  match s with
  | String c1 (String c2 r) =>
      if in_range "0" "5" c1 && isdigit c2
      then Some (10 * digit_value c1 + digit_value c2, r)
      else if isdigit c1 then Some (digit_value c1, String c2 r)
      else None
  | String c1 EmptyString =>
      if isdigit c1 then Some (digit_value c1, EmptyString) else None
  | EmptyString => None
  end%Z.

(** A literal character of the format. *)
Definition expect (c : ascii) (s : string) : option string :=
  match s with
  | String d r => if Ascii.eqb c d then Some r else None
  | EmptyString => None
  end.

(** A blank of the format: [\s+]. *)
Definition expect_spaces (s : string) : option string :=
  match s with
  | String c r => if isspace c then Some (lstrip_by isspace r) else None
  | EmptyString => None
  end.

Definition is_leap (y : Z) : bool :=
  ((y mod 4 =? 0) && (negb (y mod 100 =? 0) || (y mod 400 =? 0)))%Z.

Definition days_in_month (y m : Z) : Z :=
  (if m =? 2 then (if is_leap y then 29 else 28)
   else if (m =? 4) || (m =? 6) || (m =? 9) || (m =? 11) then 30
   else 31)%Z.

(** The century rule of [%y]: 69..99 are 1969..1999, 0..68 are 2000..2068. *)
Definition full_year (yy : Z) : Z := (if yy <=? 68 then 2000 + yy else 1900 + yy)%Z.

(** [datetime.strptime(s, "%m/%d/%y %H:%M")]: the directives in order, all
    of [s] consumed, and the day within the month. *)
Definition strptime (s : string) : result datetime :=
  let parsed :=
    '(m, s1) ← directive_m s;
    s2 ← expect "/" s1;
    '(d, s3) ← directive_d s2;
    s4 ← expect "/" s3;
    '(yy, s5) ← directive_y s4;
    s6 ← expect_spaces s5;
    '(H, s7) ← directive_H s6;
    s8 ← expect ":" s7;
    '(Mi, s9) ← directive_M s8;
    match s9 with
    | EmptyString =>
        let y := full_year yy in
        if (d <=? days_in_month y m)%Z
        then Some {| year := y; month := m; day := d; hour := H; minute := Mi |}
        else None
    | _ => None
    end in
  match parsed with
  | Some dt => Ok dt
  | None => Raise (ValueError "time data does not match format '%m/%d/%y %H:%M'")
  end.

(** [dt.isoformat()] for a datetime without seconds and microseconds. *)
Definition isoformat (dt : datetime) : string :=
  pad4 (year dt) +:+ "-" +:+ pad2 (month dt) +:+ "-" +:+ pad2 (day dt)
  +:+ "T" +:+ pad2 (hour dt) +:+ ":" +:+ pad2 (minute dt) +:+ ":00".

End Strptime.

(** The directives of [strptime] in continuation form, for the proofs: a
    directive followed by a separator, and the last directive, behind which
    nothing may be left. *)
Module StrptimeSteps.






End StrptimeSteps.

(** ** The message parser *)

(** The dictionary returned by [parse_message]. *)
Record ParsedMessage : Type := {
  timestamp : string;
  sender : string;
  content : string;
  embedding : list spec_float
}.

Section Indexer.
(** [self.model.encode(content, convert_to_numpy=True).tolist()]; the call
    may raise. *)
Variable model_encode : string -> result (list spec_float).

Definition not_colon (c : ascii) : bool := negb (Ascii.eqb c ":").
(** [.] matches every character but the line feed. *)
Definition dot (c : ascii) : bool := negb (Ascii.eqb c (ascii_of_nat 10)).

(** [(\d{1,2}/\d{1,2}/\d{2}),\s(\d{1,2}:\d{2})\s-\s([^:]+):\s(.+)] *)
Definition pattern : list Re.item :=
  [ Re.rep PyStr.isdigit 1 2; Re.lit "/"; Re.rep PyStr.isdigit 1 2; Re.lit "/";
    Re.rep PyStr.isdigit 2 2;
    Re.lit ","; Re.one PyStr.isspace;
    Re.rep PyStr.isdigit 1 2; Re.lit ":"; Re.rep PyStr.isdigit 2 2;
    Re.one PyStr.isspace; Re.lit "-"; Re.one PyStr.isspace;
    Re.plus not_colon;
    Re.lit ":"; Re.one PyStr.isspace;
    Re.plus dot ].

(** [match.groups()] of [re.match(pattern, line)]: the four groups are the
    pieces 1-5, 8-10, 14 and 17. *)
Definition match_groups (line : string)
  : option (string * string * string * string) :=
  match Re.match_seq pattern line with
  | Some [mo; sl1; dd; sl2; yy; _; _; hh; co; mi; _; _; _; snd; _; _; cnt] =>
      Some (mo +:+ sl1 +:+ dd +:+ sl2 +:+ yy, hh +:+ co +:+ mi, snd, cnt)
  | _ => None
  end.

(** [WhatsAppChatIndexer.parse_message(line)]; the [except] clause turns
    every exception of the [try] block, of [strptime] or of the embedding
    model, into [None]. *)
Definition parse_message (line : string) : result (option ParsedMessage) :=
  match match_groups line with
  | Some (date, time, sender, content) =>
      match Strptime.strptime (date +:+ " " +:+ time) with
      | Ok timestamp =>
          match model_encode content with
          | Ok embedding =>
              Ok (Some {| timestamp := Strptime.isoformat timestamp;
                          sender := PyStr.strip sender;
                          content := PyStr.strip content;
                          embedding := embedding |})
          | Raise _ => Ok None
          end
      | Raise _ => Ok None
      end
  | None => Ok None
  end.
End Indexer.

(** ** The lines of the chat export *)

Module LineShape.
















End LineShape.

(** ** Indexing a chat file *)

Module Indexing.

(** An element of [objects_to_insert]: the dictionary with the keys
    ["properties"], ["vector"] and ["class"]. *)
Record InsertObject : Type := {
  io_properties : gmap string string;
  io_vector : list spec_float;
  io_class : string
}.

(** A call of the vector store made by [index_chat], with what it gave:
    [collection.data.insert(properties, vector)] or
    [collection.data.insert_many(objects)]. *)
Inductive store_call : Type :=
| CallInsert (properties : gmap string string) (vector : list spec_float)
             (outcome : result unit)
| CallInsertMany (objects : list InsertObject) (outcome : result unit).

(** A file that was opened: the lines that [for line in file] yields, and
    the exception that ends the iteration behind them when reading or
    decoding fails. *)
Record opened_file : Type := {
  file_lines : list string;
  file_error : option exn
}.

(** What a [WhatsAppChatIndexer] reaches: the embedding model, the file
    system and the collection of the store.  Standard output is left out. *)
Record Indexer : Type := {
  (** [self.model.encode(content, convert_to_numpy=True).tolist()] *)
  ix_encode : string -> result (list spec_float);
  (** [open(filepath, 'r', encoding='utf-8')] *)
  ix_open : string -> result opened_file;
  (** [self.client.collections.get("WhatsAppMessage")] *)
  ix_collection : result unit;
  (** [collection.data.insert(properties=..., vector=...)] *)
  ix_insert : gmap string string -> list spec_float -> result unit;
  (** [collection.data.insert_many(objects)] *)
  ix_insert_many : list InsertObject -> result unit
}.

(** The local variables of [index_chat] that live across the lines, and the
    calls of the store so far. *)
Record loop_state : Type := {
  objects_to_insert : list InsertObject;
  total_processed : Z;
  calls : list store_call
}.

Definition initial_state : loop_state :=
  {| objects_to_insert := []; total_processed := 0; calls := [] |}.

(** The dictionary [{"content": ..., "sender": ..., "timestamp": ...}]. *)
Definition message_properties (parsed : ParsedMessage) : gmap string string :=
  {[ "content" := content parsed;
     "sender" := sender parsed;
     "timestamp" := timestamp parsed ]}.

Definition insert_object (parsed : ParsedMessage) : InsertObject :=
  {| io_properties := message_properties parsed;
     io_vector := embedding parsed;
     io_class := "WhatsAppMessage" |}.

Definition notice : string := "Messages and calls are end-to-end encrypted".

(** [not line or "Messages and calls are end-to-end encrypted" in line] *)
Definition skipped (line : string) : bool :=
  match line with
  | EmptyString => true
  | _ => PyStr.contains notice line
  end.

Section Loop.
Variable self : Indexer.

(** The body of [for line in file]. *)
Definition index_line (st : loop_state) (raw : string) : result loop_state :=
  let line := PyStr.strip raw in
  if skipped line then Ok st
  else
    match parse_message (ix_encode self) line with
    | Raise e => Raise e
    | Ok parsed =>
        (* if parsed: *)
        let st1 :=
          match parsed with
          | Some message =>
              {| objects_to_insert :=
                   (objects_to_insert st ++ [insert_object message])%list;
                 total_processed := total_processed st + 1;
                 calls := calls st |}
          | None => st
          end in
        (* if len(objects_to_insert) >= 1: *)
        if (1 <=? length (objects_to_insert st1))%nat then
          let calls1 :=
            match parsed with
            | Some message =>
                (calls st1
                 ++ [CallInsert (message_properties message) (embedding message)
                       (ix_insert self (message_properties message)
                                  (embedding message))])%list
            | None =>
                (* [parsed["content"]] raises inside the [try] *)
                calls st1
            end in
          Ok {| objects_to_insert := [];
                total_processed := total_processed st1;
                calls := calls1 |}
        else Ok st1
    end.

(** The [for] loop over the lines that the file yields: the state that is
    reached, and the exception that ended the loop, if any. *)
Fixpoint index_lines (st : loop_state) (lines : list string)
  : loop_state * option exn :=
  match lines with
  | [] => (st, None)
  | raw :: rest =>
      match index_line st raw with
      | Raise e => (st, Some e)
      | Ok st' => index_lines st' rest
      end
  end.

(** [if objects_to_insert:] behind the loop. *)
Definition flush (st : loop_state) : loop_state :=
  match objects_to_insert st with
  | [] => st
  | _ :: _ =>
      {| objects_to_insert := objects_to_insert st;
         total_processed := total_processed st;
         calls := (calls st
                   ++ [CallInsertMany (objects_to_insert st)
                         (ix_insert_many self (objects_to_insert st))])%list |}
  end.

(** [WhatsAppChatIndexer.index_chat(filepath)]: the file is opened, the
    collection is fetched, then the lines are read one after the other.  The
    result is the exit (the state at the end, or the exception) and the
    calls of the store that were made up to it. *)
Definition index_chat_run (filepath : string)
  : result loop_state * list store_call :=
  match ix_open self filepath with
  | Raise e => (Raise e, [])
  | Ok file =>
      match ix_collection self with
      | Raise e => (Raise e, [])
      | Ok _ =>
          match index_lines initial_state (file_lines file) with
          | (st, Some e) => (Raise e, calls st)
          | (st, None) =>
              match file_error file with
              | Some e => (Raise e, calls st)
              | None => (Ok (flush st), calls (flush st))
              end
          end
      end
  end.

(** The exit of [index_chat]; the method itself returns [None]. *)
Definition index_chat (filepath : string) : result loop_state :=
  fst (index_chat_run filepath).

(** The message of a line of the file, when the loop reaches the parser and
    the parser gives one. *)
Definition message_of (raw : string) : option ParsedMessage :=
  let line := PyStr.strip raw in
  if skipped line then None
  else match parse_message (ix_encode self) line with
       | Ok (Some message) => Some message
       | _ => None
       end.

(** The messages of the lines of a file, in the order of the file. *)
Fixpoint messages_of (lines : list string) : list ParsedMessage :=
  match lines with
  | [] => []
  | raw :: rest =>
      match message_of raw with
      | Some message => message :: messages_of rest
      | None => messages_of rest
      end
  end.

(** The store call for a message. *)
Definition insert_call (message : ParsedMessage) : store_call :=
  CallInsert (message_properties message) (embedding message)
             (ix_insert self (message_properties message) (embedding message)).
End Loop.

(** An indexer over a file of five lines whose store refuses every
    insertion, for the examples. *)
Definition example_lines : list string :=
  [ "1/2/23, 9:15 - Messages and calls are end-to-end encrypted. Tap to learn more." +:+ nl;
    "1/2/23, 9:16 - Alice Smith: are we still on for tonight?" +:+ nl;
    "bring the tickets" +:+ nl;
    nl;
    "1/2/23, 9:20 - Bob: yes: at eight" +:+ nl ].

Definition example_indexer : Indexer :=
  {| ix_encode := fun _ => Ok [];
     ix_open := fun _ => Ok {| file_lines := example_lines;
                               file_error := None |};
     ix_collection := Ok tt;
     ix_insert := fun _ _ => Raise (ExternalError "connection refused");
     ix_insert_many := fun _ => Raise (ExternalError "connection refused") |}.

(** The same indexer on a file whose third line cannot be decoded. *)
Definition example_indexer_bad_bytes : Indexer :=
  {| ix_encode := fun _ => Ok [];
     ix_open := fun _ =>
       Ok {| file_lines := firstn 2 example_lines;
             file_error := Some (ValueError "'utf-8' codec can't decode byte") |};
     ix_collection := Ok tt;
     ix_insert := fun _ _ => Raise (ExternalError "connection refused");
     ix_insert_many := fun _ => Raise (ExternalError "connection refused") |}.

End Indexing.

(** ** Subsequences of strings *)

(** [subseq r s]: [r] is [s] without some of its characters. *)
Inductive subseq : string -> string -> Prop :=
| subseq_empty : subseq EmptyString EmptyString
| subseq_keep (c : ascii) (r s : string) :
    subseq r s -> subseq (String c r) (String c s)
| subseq_drop (c : ascii) (r s : string) :
    subseq r s -> subseq r (String c s).

(** * Properties *)

(** ** Facts about the string operations *)

Module PyStrFacts.
Import PyStr.

(** The operations on values that Python prints the same way. *)
Example lower_mixed : lower "Is It RAINING?" = "is it raining?".
Proof. reflexivity. Qed.

Example rstrip_every : rstrip "?" "is it raining???" = "is it raining".
Proof. reflexivity. Qed.

Example rstrip_inner : rstrip "?" "why? now" = "why? now".
Proof. reflexivity. Qed.

Example strip_both : strip "  it rained  all night  " = "it rained  all night".
Proof. reflexivity. Qed.

Example split_runs :
  split "  it rained  all night " = ["it"; "rained"; "all"; "night"].
Proof. reflexivity. Qed.

Example split_blank : split "   " = [].
Proof. reflexivity. Qed.

Example replace_every : replace "ab" "" "xabyabab z" = "xy z".
Proof. reflexivity. Qed.

Example replace_no_overlap : replace "aa" "" "aaa" = "a".
Proof. reflexivity. Qed.

Example replace_empty_old : replace "" "-" "abc" = "-a-b-c-".
Proof. reflexivity. Qed.

Example replace_empty_both : replace "" "" "abc" = "abc".
Proof. reflexivity. Qed.

Example contains_phrase : contains "same as" "it is the same as before" = true.
Proof. reflexivity. Qed.

Example join_blank_line :
  join "; " ["a"; "b"; "c"] = "a; b; c".
Proof. reflexivity. Qed.

Lemma app_empty_r (s : string) : s +:+ "" = s.
Proof. induction s as [|c s IH]; simpl; [reflexivity | now rewrite IH]. Qed.

Lemma app_assoc (a b c : string) : (a +:+ b) +:+ c = a +:+ (b +:+ c).
Proof. induction a as [|x a IH]; simpl; [reflexivity | now rewrite IH]. Qed.


(** [String.prefix] decides being a prefix. *)
Lemma prefix_cons (a b : ascii) (p s : string) :
  String.prefix (String a p) (String b s) = Ascii.eqb a b && String.prefix p s.
Proof.
  simpl. destruct (ascii_dec a b) as [->|Hne].
  - now rewrite Ascii.eqb_refl.
  - apply Ascii.eqb_neq in Hne. now rewrite Hne.
Qed.

Lemma prefix_empty (s : string) : String.prefix "" s = true.
Proof. now destruct s. Qed.

Lemma prefix_spec (p s : string) :
  String.prefix p s = true <-> exists b, s = p +:+ b.
Proof.
  revert s. induction p as [|a p IH]; intros s.
  - rewrite prefix_empty. split; [intros _; now exists s | reflexivity].
  - destruct s as [|b s].
    + simpl. split; [discriminate | intros [r Hr]; discriminate].
    + rewrite prefix_cons, andb_true_iff, Ascii.eqb_eq, IH. split.
      * intros [-> [r ->]]. now exists r.
      * intros [r Hr]. simpl in Hr. injection Hr as -> ->. split; eauto.
Qed.

Lemma prefix_app (p b : string) : String.prefix p (p +:+ b) = true.
Proof. apply prefix_spec. now exists b. Qed.

Lemma prefix_trans (a b c : string) :
  String.prefix a b = true -> String.prefix b c = true -> String.prefix a c = true.
Proof.
  rewrite !prefix_spec. intros [x ->] [y ->]. exists (x +:+ y). apply app_assoc.
Qed.

(** [contains] decides being a substring. *)
Lemma contains_spec (sub s : string) :
  contains sub s = true <-> exists a b, s = a +:+ sub +:+ b.
Proof.
  induction s as [|c s IH]; cbn [contains].
  - rewrite orb_false_r, prefix_spec. split.
    + intros [b Hb]. now exists "", b.
    + intros [a [b H]]. destruct a; [|discriminate]. now exists b.
  - rewrite orb_true_iff, IH, prefix_spec. split.
    + intros [[b Hb] | [a [b ->]]].
      * now exists "", b.
      * now exists (String c a), b.
    + intros [a [b H]]. destruct a as [|x a].
      * left. now exists b.
      * right. simpl in H. injection H as -> ->. now exists a, b.
Qed.

Lemma contains_app_l (sub a s : string) :
  contains sub s = true -> contains sub (a +:+ s) = true.
Proof.
  rewrite !contains_spec. intros [x [y ->]]. exists (a +:+ x), y.
  now rewrite app_assoc.
Qed.

Lemma contains_app_r (sub s b : string) :
  contains sub s = true -> contains sub (s +:+ b) = true.
Proof.
  rewrite !contains_spec. intros [x [y ->]]. exists x, (y +:+ b).
  now rewrite !app_assoc.
Qed.

(** What the two one-sided strips remove. *)
Lemma lstrip_by_decompose (p : ascii -> bool) (s : string) :
  exists w, s = w +:+ lstrip_by p s /\ all_chars p w = true.
Proof.
  induction s as [|c s [w [Hw Hp]]]; simpl.
  - now exists "".
  - destruct (p c) eqn:Hc.
    + exists (String c w). simpl. rewrite Hc, Hp. now rewrite <- Hw.
    + now exists "".
Qed.

Lemma rstrip_by_decompose (p : ascii -> bool) (s : string) :
  exists w, s = rstrip_by p s +:+ w /\ all_chars p w = true.
Proof.
  induction s as [|c s [w [Hw Hp]]]; simpl.
  - now exists "".
  - destruct (rstrip_by p s) as [|d r] eqn:Hr.
    + simpl in Hw. subst w. destruct (p c) eqn:Hc.
      * exists (String c s). simpl. now rewrite Hc, Hp.
      * exists s. now split.
    + exists w. simpl. split; [now rewrite Hw at 1 | assumption].
Qed.

Lemma rstrip_by_prefix (p : ascii -> bool) (s : string) :
  String.prefix (rstrip_by p s) s = true.
Proof.
  destruct (rstrip_by_decompose p s) as [w [Hw _]].
  apply prefix_spec. now exists w.
Qed.

Lemma rstrip_by_last (p : ascii -> bool) (s r : string) (c : ascii) :
  rstrip_by p s = r +:+ String c "" -> p c = false.
Proof.
  revert r. induction s as [|d s IH]; intros r; simpl.
  - destruct r; discriminate.
  - destruct (rstrip_by p s) as [|e t] eqn:Ht.
    + destruct (p d) eqn:Hd.
      * destruct r; discriminate.
      * destruct r as [|x r]; simpl; intros H.
        -- now injection H as <-.
        -- injection H as _ H. destruct r; discriminate.
    + destruct r as [|x r]; simpl; intros H; [discriminate|].
      injection H as _ H. now apply (IH r).
Qed.

Lemma contains_strip (sub s : string) :
  contains sub (strip s) = true -> contains sub s = true.
Proof.
  unfold strip. intros H.
  destruct (rstrip_by_decompose isspace s) as [w [Hw _]].
  destruct (lstrip_by_decompose isspace (rstrip_by isspace s)) as [v [Hv _]].
  rewrite Hw, Hv. now apply contains_app_r, contains_app_l.
Qed.

(** The words of a string do not depend on the whitespace at its ends. *)
Lemma split_lstrip (s : string) : split (lstrip_by isspace s) = split s.
Proof.
  induction s as [|c s IH]; [reflexivity|].
  cbn [lstrip_by]. destruct (isspace c) eqn:Hc; [|reflexivity].
  rewrite IH. simpl. now rewrite Hc.
Qed.

Lemma rstrip_by_head (p : ascii -> bool) (s r : string) (d : ascii) :
  rstrip_by p s = String d r -> exists s', s = String d s'.
Proof.
  destruct s as [|c s]; simpl; [discriminate|].
  destruct (rstrip_by p s).
  - destruct (p c); [discriminate|]. intros H. injection H as -> _. eauto.
  - intros H. injection H as -> _. eauto.
Qed.

Lemma split_single (c : ascii) :
  isspace c = false -> split (String c "") = [String c ""].
Proof. intros H. simpl. now rewrite H. Qed.

Lemma split_rstrip (s : string) : split (rstrip_by isspace s) = split s.
Proof.
  induction s as [|c s IH]; [reflexivity|].
  cbn [rstrip_by]. destruct (rstrip_by isspace s) as [|d r] eqn:Hr.
  - simpl in IH. cbn [split]. destruct (isspace c) eqn:Hc.
    + now rewrite <- IH.
    + rewrite split_single by assumption.
      destruct s as [|c' s']; [reflexivity|].
      rewrite <- IH. now destruct (isspace c').
  - destruct (rstrip_by_head _ _ _ _ Hr) as [s' ->].
    cbn [split] in *. destruct (isspace c); [assumption|].
    destruct (isspace d); now rewrite IH.
Qed.

Lemma split_strip (s : string) : split (strip s) = split s.
Proof. unfold strip. now rewrite split_lstrip, split_rstrip. Qed.

(** Lower-casing. *)
Lemma lower_char_idem (c : ascii) : lower_char (lower_char c) = lower_char c.
Proof. destruct c as [[] [] [] [] [] [] [] []]; reflexivity. Qed.

Lemma lower_idem (s : string) : lower (lower s) = lower s.
Proof.
  induction s as [|c s IH]; simpl; [reflexivity|].
  now rewrite lower_char_idem, IH.
Qed.

Lemma lower_app (a b : string) : lower (a +:+ b) = lower a +:+ lower b.
Proof. induction a as [|c a IH]; simpl; [reflexivity | now rewrite IH]. Qed.

Lemma lower_prefix (p s : string) :
  String.prefix p s = true -> String.prefix (lower p) (lower s) = true.
Proof.
  rewrite !prefix_spec. intros [b ->]. exists (lower b). apply lower_app.
Qed.

Lemma lower_char_question (c : ascii) :
  Ascii.eqb "?" (lower_char c) = Ascii.eqb "?" c.
Proof. destruct c as [[] [] [] [] [] [] [] []]; reflexivity. Qed.

Lemma contains_char (c : ascii) (s : string) :
  contains (String c "") s = char_in c s.
Proof.
  induction s as [|d s IH]; [reflexivity|].
  cbn [contains char_in]. rewrite prefix_cons, prefix_empty, andb_true_r.
  now rewrite IH.
Qed.

Lemma lower_question (s : string) : contains "?" (lower s) = contains "?" s.
Proof.
  rewrite !contains_char. induction s as [|d s IH]; [reflexivity|].
  cbn [lower char_in]. now rewrite lower_char_question, IH.
Qed.

(** Replacing an absent string changes nothing. *)
Lemma replace_from_absent (old new s : string) :
  contains old s = false -> replace_from old new 0 s = s.
Proof.
  induction s as [|c s IH]; [reflexivity|].
  cbn [contains replace_from]. intros H. apply orb_false_iff in H as [H1 H2].
  rewrite H1. now rewrite IH.
Qed.

Lemma intersperse_empty (s : string) : intersperse_all "" s = s.
Proof. induction s as [|c s IH]; simpl; [reflexivity | now rewrite IH]. Qed.

Lemma replace_absent (old new s : string) :
  contains old s = false -> replace old new s = s.
Proof.
  destruct old as [|a old].
  - destruct s; discriminate.
  - apply replace_from_absent.
Qed.

Lemma all_chars_app (f : ascii -> bool) (a b : string) :
  all_chars f (a +:+ b) = all_chars f a && all_chars f b.
Proof.
  induction a as [|c a IH]; simpl; [reflexivity|].
  now rewrite IH, andb_assoc.
Qed.

Lemma all_chars_last (f : ascii -> bool) (s : string) (c : ascii) :
  all_chars f s = true -> last_char s = Some c -> f c = true.
Proof.
  induction s as [|d s IH]; simpl; [discriminate|].
  intros H. apply andb_true_iff in H as [Hd Hs].
  destruct (last_char s) as [e|].
  - intros [= ->]. now apply IH.
  - now intros [= <-].
Qed.

Lemma prefix_all_chars (f : ascii -> bool) (p w : string) :
  String.prefix p w = true -> all_chars f w = true -> all_chars f p = true.
Proof.
  rewrite prefix_spec. intros [b ->]. rewrite all_chars_app.
  intros H. now apply andb_true_iff in H as [H _].
Qed.

Lemma contains_all_chars (f : ascii -> bool) (p w : string) :
  contains p w = true -> all_chars f w = true -> all_chars f p = true.
Proof.
  rewrite contains_spec. intros [a [b ->]]. rewrite !all_chars_app.
  intros H. apply andb_true_iff in H as [_ H].
  now apply andb_true_iff in H as [H _].
Qed.

(** A word that ends in no whitespace does not reach into trailing
    whitespace, and one that starts with none does not start in leading
    whitespace. *)
Lemma prefix_before_spaces (w s p : string) (c : ascii) :
  all_chars isspace w = true -> last_char p = Some c -> isspace c = false ->
  String.prefix p (s +:+ w) = true -> String.prefix p s = true.
Proof.
  intros Hw. revert p. induction s as [|x s IH]; intros p Hl Hc.
  - cbn [String.append]. intros Hp.
    pose proof (all_chars_last _ _ _ (prefix_all_chars _ _ _ Hp Hw) Hl).
    congruence.
  - destruct p as [|a p]; [discriminate|].
    cbn [String.append]. rewrite !prefix_cons.
    intros H. apply andb_true_iff in H as [-> H]. cbn [andb].
    cbn [last_char] in Hl. destruct (last_char p) as [e|] eqn:He.
    + injection Hl as ->. now apply IH.
    + destruct p; [apply prefix_empty | cbn in He; destruct (last_char p); discriminate].
Qed.

Lemma contains_before_spaces (w s p : string) (c : ascii) :
  all_chars isspace w = true -> last_char p = Some c -> isspace c = false ->
  contains p (s +:+ w) = true -> contains p s = true.
Proof.
  intros Hw Hl Hc. induction s as [|x s IH].
  - cbn [String.append]. intros Hp.
    pose proof (all_chars_last _ _ _ (contains_all_chars _ _ _ Hp Hw) Hl).
    congruence.
  - cbn [String.append contains]. intros H.
    apply orb_true_iff in H as [H | H]; apply orb_true_iff.
    + left. now apply (prefix_before_spaces w (String x s) p c).
    + right. now apply IH.
Qed.

Lemma contains_after_spaces (w s p : string) (c : ascii) :
  all_chars isspace w = true -> isspace c = false ->
  contains (String c p) (w +:+ s) = contains (String c p) s.
Proof.
  intros Hw Hc. induction w as [|x w IH]; [reflexivity|].
  cbn [all_chars] in Hw. apply andb_true_iff in Hw as [Hx Hw].
  cbn [String.append contains]. rewrite prefix_cons, (IH Hw).
  destruct (Ascii.eqb_spec c x) as [->|_]; [congruence | reflexivity].
Qed.

Lemma contains_strip_trimmed (p s : string) :
  trimmed p = true -> contains p (strip s) = contains p s.
Proof.
  unfold trimmed. destruct p as [|c p]; [discriminate|].
  destruct (last_char (String c p)) as [d|] eqn:Hl; [|discriminate].
  intros H. apply andb_true_iff in H as [Hc Hd].
  apply negb_true_iff in Hc, Hd.
  destruct (contains (String c p) s) eqn:Hs.
  - unfold strip.
    destruct (rstrip_by_decompose isspace s) as [w [Hw Hws]].
    destruct (lstrip_by_decompose isspace (rstrip_by isspace s)) as [v [Hv Hvs]].
    rewrite Hw in Hs. apply (contains_before_spaces w _ _ d Hws Hl Hd) in Hs.
    rewrite Hv in Hs. now rewrite (contains_after_spaces v _ _ _ Hvs Hc) in Hs.
  - destruct (contains (String c p) (strip s)) eqn:Ht; [|reflexivity].
    apply contains_strip in Ht. congruence.
Qed.

(** The tokens counted from the word starts are the words of [split]. *)
Lemma length_cons_head (c : ascii) (l : list string) :
  l <> [] -> length (cons_head c l) = length l.
Proof. now destruct l. Qed.

Lemma token_count_split (s : string) :
  FilterRules.token_count_from false s = length (split s)
  /\ forall c, isspace c = false ->
       length (split (String c s)) = S (FilterRules.token_count_from true s).
Proof.
  induction s as [|d s [IH1 IH2]].
  - split; [reflexivity|]. intros c Hc. now rewrite split_single.
  - split.
    + cbn [FilterRules.token_count_from]. destruct (isspace d) eqn:Hd.
      * rewrite IH1. cbn [split]. now rewrite Hd.
      * now rewrite (IH2 d Hd).
    + intros c Hc. cbn [FilterRules.token_count_from].
      destruct (isspace d) eqn:Hd.
      * cbn [split]. rewrite Hc, Hd. cbn [length]. now rewrite IH1.
      * specialize (IH2 d Hd).
        change (split (String c (String d s)))
          with (if isspace c then split (String d s)
                else if isspace d then String c "" :: split (String d s)
                     else cons_head c (split (String d s))).
        rewrite Hc, Hd. rewrite length_cons_head; [exact IH2|].
        intros E. now rewrite E in IH2.
Qed.

Lemma token_count_correct (s : string) :
  FilterRules.token_count s = length (split s).
Proof. apply token_count_split. Qed.

End PyStrFacts.

(** ** The informativeness filter *)

Section Filter.
Import PyStr PyStrFacts.

(** The three tests of [is_informative_content], on the residual before
    its [strip()]. *)
Lemma is_informative_content_tests (text query : string) :
  is_informative_content text query =
  negb (length (split (residual text query)) <? 5)%nat
  && negb (startswith (lower text) (rstrip "?" (lower query))
           && contains "?" text)
  && negb (existsb (fun phrase => contains phrase (residual text query))
                   reference_phrases
           && (length (split (residual text query)) <? 10)%nat).
Proof.
  unfold is_informative_content. fold (residual text query).
  rewrite split_strip.
  destruct (length (split (residual text query)) <? 5)%nat; [reflexivity|].
  destruct (startswith _ _ && contains "?" text); [reflexivity|].
  cbn [negb andb]. f_equal.
  unfold reference_phrases. cbn [existsb].
  rewrite !contains_strip_trimmed by reflexivity.
  destruct (contains "like" _), (contains "similar to" _),
    (contains "same as" _), (_ <? 10)%nat; reflexivity.
Qed.

(** The query of a text that starts with it still is a prefix after the
    normalisation of both. *)
Lemma startswith_normalised (text query : string) :
  startswith text query = true ->
  startswith (lower text) (rstrip "?" (lower query)) = true.
Proof.
  unfold startswith, rstrip. intros H.
  eapply prefix_trans; [apply rstrip_by_prefix | now apply lower_prefix].
Qed.

(** C5. A text whose residual (the lower-cased text without the lower-cased
    query, trailing question marks of the query stripped) has fewer than
    five whitespace-separated tokens is rejected. *)
Theorem short_residual_rejected (text query : string) :
  (length (split (residual text query)) < 5)%nat ->
  is_informative_content text query = false.
Proof.
  intros H. rewrite is_informative_content_tests.
  apply Nat.ltb_lt in H. now rewrite H.
Qed.

(** C5, the example of the specification: ["yes"] for the query
    ["is it raining"] has a residual of one token and is rejected. *)
Lemma short_residual_rejected_yes :
  (length (split (residual "yes" "is it raining")) < 5)%nat
  /\ is_informative_content "yes" "is it raining" = false.
Proof.
  split; [vm_compute; lia|].
  apply (short_residual_rejected "yes" "is it raining"). vm_compute. lia.
Defined.

(** The filter with [str.lower] as a parameter is the filter of the
    strings over U+0000..U+00FF at their lower-casing. *)
Lemma is_informative_on_lower (text query : string) :
  is_informative_on lower text query = is_informative_content text query.
Proof. reflexivity. Qed.

(** On the strings over U+0000..U+00FF, where [str.lower] maps character by
    character, a text that starts with the query and contains a question
    mark is rejected. *)
Lemma raw_prefix_rejected (text query : string) :
  startswith text query = true ->
  contains "?" text = true ->
  is_informative_content text query = false.
Proof.
  intros Hp Hq. rewrite is_informative_content_tests.
  rewrite (startswith_normalised _ _ Hp), Hq.
  cbn [andb negb]. now rewrite andb_false_r.
Qed.

(** C6 as stated fails where [str.lower] depends on the context: the text
    capital alpha, capital sigma, capital alpha, ["? one two three four
    five"] starts with the query capital alpha, capital sigma and contains a
    question mark, but the sigma of the query becomes a final sigma and the
    one of the text does not, so the lower-cased text does not start with
    the lower-cased query, and the text is accepted. *)
Lemma raw_prefix_accepted :
  startswith GreekPage.example_text GreekPage.example_query = true
  /\ contains "?" GreekPage.example_text = true
  /\ GreekPage.lower GreekPage.example_query
     = String GreekPage.small_alpha (String GreekPage.final_sigma "")
  /\ GreekPage.lower GreekPage.example_text
     = String GreekPage.small_alpha (String GreekPage.small_sigma
         (String GreekPage.small_alpha "? one two three four five"))
  /\ GreekPage.is_informative_content GreekPage.example_text
       GreekPage.example_query = true.
Proof. repeat split. Qed.

(** C6, amended. Whatever the alphabet and its lower-casing, a text whose
    lower-cased form starts with the lower-cased query without its trailing
    question marks, and which contains a question mark, is rejected. *)
Theorem restated_question_rejected (lower : string -> string)
        (text query : string) :
  startswith (lower text) (rstrip "?" (lower query)) = true ->
  contains "?" text = true ->
  is_informative_on lower text query = false.
Proof.
  intros Hp Hq. unfold is_informative_on. rewrite Hp, Hq. cbn [andb].
  now destruct (_ <? 5)%nat.
Qed.

(** C6, the example of the specification. *)
Lemma restated_question_rejected_raining :
  startswith (lower "is it raining outside today?")
             (rstrip "?" (lower "is it raining")) = true
  /\ contains "?" "is it raining outside today?" = true
  /\ is_informative_content "is it raining outside today?" "is it raining"
     = false.
Proof.
  split; [reflexivity|]. split; [reflexivity|].
  apply (restated_question_rejected lower "is it raining outside today?"
           "is it raining"); reflexivity.
Defined.

(** C7 as stated fails: the prefix test is made on the lower-cased text and
    on the query without its trailing question mark.  A text that starts with
    the query only up to case and up to that question mark does not "start
    with the query", has a long residual without reference phrase, and is
    rejected all the same. *)
Lemma accepted_as_stated_fails :
  let text := "Is it raining today? It rained heavily all night" in
  let query := "is it raining?" in
  (5 <= length (split (residual text query)))%nat
  /\ startswith text query && contains "?" text = false
  /\ existsb (fun phrase => contains phrase (residual text query))
             reference_phrases
     && (length (split (residual text query)) <? 10)%nat = false
  /\ is_informative_content text query = false.
Proof. vm_compute. repeat split; lia. Qed.

(** C7, amended. A text is accepted when its residual has at least five
    tokens, the lower-cased text does not both start with the normalised
    query (lower-cased, trailing question marks stripped) and contain a
    question mark, and the residual does not both contain a reference
    phrase and have fewer than ten tokens. *)
Theorem informative_accepted (text query : string) :
  (5 <= length (split (residual text query)))%nat ->
  startswith (lower text) (rstrip "?" (lower query)) && contains "?" text
  = false ->
  existsb (fun phrase => contains phrase (residual text query))
          reference_phrases
  && (length (split (residual text query)) <? 10)%nat = false ->
  is_informative_content text query = true.
Proof.
  intros H1 H2 H3. rewrite is_informative_content_tests, H2, H3.
  apply Nat.ltb_ge in H1. now rewrite H1.
Qed.

(** C7, the example of the specification. *)
Lemma informative_accepted_rained :
  let text := "it rained heavily all night and flooded the street" in
  let query := "is it raining" in
  (5 <= length (split (residual text query)))%nat
  /\ is_informative_content text query = true.
Proof.
  split; [vm_compute; lia|].
  apply (informative_accepted
           "it rained heavily all night and flooded the street"
           "is it raining"); [vm_compute; lia | reflexivity | reflexivity].
Defined.

(** C2 as stated fails: with two trailing question marks the code strips
    both, so the query becomes a prefix of the text and the text is
    rejected, while the rules as worded (one question mark stripped, rule 4
    on the original text, against the query as given or as normalised)
    accept it. *)
Lemma single_strip_differs :
  let text := "is it raining today? well it was pouring all morning" in
  let query := "is it raining??" in
  is_informative_content text query = false
  /\ FilterRules.is_informative FilterRules.strip_one_question
       FilterRules.OriginalTextAndQuery text query = true
  /\ FilterRules.is_informative FilterRules.strip_one_question
       FilterRules.OriginalText text query = true.
Proof. repeat split. Qed.

(** Each of the two amendments is needed.  With every question mark
    stripped but rule 4 on the original text, a text that starts with the
    query only up to case is accepted by the rules and rejected by the code;
    with rule 4 on the lower-cased text but one question mark stripped, the
    text above still is accepted by the rules. *)
Lemma original_text_differs :
  let text := "Is it raining today? It rained heavily all night" in
  let query := "is it raining?" in
  is_informative_content text query = false
  /\ FilterRules.is_informative FilterRules.strip_every_question
       FilterRules.OriginalTextAndQuery text query = true
  /\ FilterRules.is_informative FilterRules.strip_every_question
       FilterRules.OriginalText text query = true.
Proof. repeat split. Qed.

Lemma single_strip_lower_cased_differs :
  let text := "is it raining today? well it was pouring all morning" in
  let query := "is it raining??" in
  is_informative_content text query = false
  /\ FilterRules.is_informative FilterRules.strip_one_question
       FilterRules.LowerCasedText text query = true.
Proof. split; reflexivity. Qed.

(** C2, amended. The filter is the rules of section 4.3 applied in order,
    where rule 1 lower-cases both strings and strips every trailing question
    mark from the query, and rule 4 compares the lower-cased text, not the
    original one, with that normalised query. *)
Theorem filter_follows_rules (text query : string) :
  is_informative_content text query
  = FilterRules.is_informative FilterRules.strip_every_question
      FilterRules.LowerCasedText text query.
Proof.
  rewrite is_informative_content_tests.
  unfold FilterRules.is_informative, FilterRules.apply_rules,
    FilterRules.strip_every_question, residual.
  set (t := lower text). set (q := rstrip "?" (lower query)).
  assert (Hres : (if contains q t then replace q "" t else t)
                 = replace q "" t).
  { destruct (contains q t) eqn:E; [reflexivity|].
    symmetry. now apply replace_absent. }
  rewrite Hres, !token_count_correct.
  destruct (_ <? 5)%nat; [reflexivity|].
  destruct (startswith _ _ && _); [reflexivity|].
  now destruct (existsb _ _ && _).
Qed.

(** C10. The verdict does not change when both arguments are replaced by
    their lower-cased forms. *)
Theorem lower_case_invariant (text query : string) :
  is_informative_content text query
  = is_informative_content (lower text) (lower query).
Proof.
  rewrite !is_informative_content_tests. unfold residual.
  now rewrite !lower_idem, lower_question.
Qed.
End Filter.


(** ** The order of floats *)

Module PyFloatFacts.
Import PyFloat.

Lemma compare_antisym (a b : spec_float) :
  SFcompare b a = option_map CompOpp (SFcompare a b).
Proof.
  destruct a as [s1|s1| |s1 m1 e1], b as [s2|s2| |s2 m2 e2]; cbn;
    try reflexivity;
    try (destruct s1; reflexivity); try (destruct s2; reflexivity);
    try (destruct s1, s2; reflexivity).
  change (Pos.compare_cont Eq m2 m1) with (m2 ?= m1)%positive.
  change (Pos.compare_cont Eq m1 m2) with (m1 ?= m2)%positive.
  rewrite (Z.compare_antisym e1 e2), (Pos.compare_antisym m1 m2).
  destruct s1, s2; cbn; try reflexivity;
    destruct (e1 ?= e2)%Z; cbn; try reflexivity;
    now destruct (m1 ?= m2)%positive.
Qed.

Lemma compare_nan (a b : spec_float) :
  SFcompare a b = None <-> is_nan a = true \/ is_nan b = true.
Proof.
  destruct a as [s1|s1| |s1 m1 e1], b as [s2|s2| |s2 m2 e2]; cbn;
    intuition (try discriminate; try reflexivity).
Qed.

Lemma le_not_nan (a b : spec_float) :
  le a b = true -> is_nan a = false /\ is_nan b = false.
Proof.
  unfold le, SFleb. destruct (SFcompare a b) eqn:E; [|discriminate].
  intros _. destruct (is_nan a) eqn:Ha, (is_nan b) eqn:Hb; try (split; reflexivity);
    assert (SFcompare a b = None) by (apply compare_nan; auto); congruence.
Qed.

Lemma lt_le (a b : spec_float) : lt a b = true -> le a b = true.
Proof. unfold lt, le, SFltb, SFleb. now destruct (SFcompare a b) as [[]|]. Qed.

Lemma le_not_lt (a b : spec_float) : le a b = true -> lt b a = false.
Proof.
  unfold lt, le, SFltb, SFleb. rewrite (compare_antisym a b).
  now destruct (SFcompare a b) as [[]|].
Qed.

Lemma not_lt_le (a b : spec_float) :
  is_nan a = false -> is_nan b = false -> lt a b = false -> le b a = true.
Proof.
  intros Ha Hb. unfold lt, le, SFltb, SFleb. rewrite (compare_antisym a b).
  destruct (SFcompare a b) as [[]|] eqn:E; cbn; try easy.
  apply compare_nan in E as [E|E]; congruence.
Qed.

(** The comparison is the lexicographic one on sign, exponent, mantissa. *)
Lemma le_trans (a b c : spec_float) :
  le a b = true -> le b c = true -> le a c = true.
Proof.
  unfold le, SFleb.
  destruct a as [s1|s1| |s1 m1 e1], b as [s2|s2| |s2 m2 e2],
    c as [s3|s3| |s3 m3 e3]; cbn;
    try discriminate; try reflexivity;
    try (destruct s1; cbn; (discriminate || reflexivity));
    try (destruct s2; cbn; (discriminate || reflexivity));
    try (destruct s3; cbn; (discriminate || reflexivity));
    try (destruct s1, s2; cbn; (discriminate || reflexivity));
    try (destruct s1, s3; cbn; (discriminate || reflexivity));
    try (destruct s2, s3; cbn; (discriminate || reflexivity));
    try (destruct s1, s2, s3; cbn; (discriminate || reflexivity)).
  change (Pos.compare_cont Eq m1 m2) with (m1 ?= m2)%positive.
  change (Pos.compare_cont Eq m2 m3) with (m2 ?= m3)%positive.
  change (Pos.compare_cont Eq m1 m3) with (m1 ?= m3)%positive.
  destruct s1, s2, s3; cbn; try discriminate; try reflexivity;
    destruct (Z.compare_spec e1 e2), (Z.compare_spec e2 e3),
      (Z.compare_spec e1 e3); cbn; try discriminate; try reflexivity;
      try lia; subst;
    destruct (Pos.compare_spec m1 m2), (Pos.compare_spec m2 m3),
      (Pos.compare_spec m1 m3); cbn; try discriminate; try reflexivity; lia.
Qed.

Lemma le_refl (a : spec_float) : is_nan a = false -> le a a = true.
Proof. intros Ha. apply not_lt_le; try assumption.
  unfold lt, SFltb. pose proof (compare_antisym a a) as H.
  destruct (SFcompare a a) as [[]|]; try reflexivity; discriminate.
Qed.

End PyFloatFacts.

(** ** [sorted] and slices *)

Module PyListFacts.
Import PyList PyFloat PyFloatFacts.
Local Open Scope list_scope.

Section SortingFacts.
Context {A : Type} (key : A -> spec_float).

Lemma insert_by_perm (x : A) (l : list A) :
  Permutation (insert_by key x l) (x :: l).
Proof.
  induction l as [|y r IH]; cbn [insert_by]; [reflexivity|].
  destruct (lt (key x) (key y)); [reflexivity|].
  rewrite IH. apply perm_swap.
Qed.

Lemma sorted_fold_perm (l acc : list A) :
  Permutation (fold_left (fun acc x => insert_by key x acc) l acc) (acc ++ l).
Proof.
  revert acc. induction l as [|x l IH]; intros acc; cbn [fold_left].
  - now rewrite app_nil_r.
  - rewrite IH, insert_by_perm. apply Permutation_middle.
Qed.

(** [sorted] rearranges its argument. *)
Lemma sorted_perm (l : list A) : Permutation (sorted key l) l.
Proof. apply (sorted_fold_perm l []). Qed.

Lemma insert_by_nondecreasing (x : A) (l : list A) :
  is_nan (key x) = false ->
  Forall (fun y => is_nan (key y) = false) l ->
  nondecreasing key l -> nondecreasing key (insert_by key x l).
Proof.
  intros Hx Hl Hs. induction Hs as [|y r Hr IH Hy]; cbn [insert_by].
  - constructor; constructor.
  - apply Forall_cons_iff in Hl as [Hny Hnr].
    destruct (lt (key x) (key y)) eqn:E.
    + constructor; [now constructor|].
      constructor; [now apply lt_le|].
      eapply Forall_impl; [exact Hy|].
      intros z Hz. cbn in *. eapply le_trans; [apply lt_le; exact E | exact Hz].
    + constructor; [now apply IH|].
      rewrite (insert_by_perm x r). constructor; [|exact Hy].
      now apply not_lt_le.
Qed.

Lemma sorted_fold_nondecreasing (l acc : list A) :
  Forall (fun y => is_nan (key y) = false) l ->
  Forall (fun y => is_nan (key y) = false) acc ->
  nondecreasing key acc ->
  nondecreasing key (fold_left (fun acc x => insert_by key x acc) l acc).
Proof.
  revert acc. induction l as [|x l IH]; intros acc Hl Ha Hs; cbn [fold_left].
  - exact Hs.
  - apply Forall_cons_iff in Hl as [Hx Hl]. apply IH; [exact Hl| |].
    + rewrite (insert_by_perm x acc). now constructor.
    + now apply insert_by_nondecreasing.
Qed.

(** Without NaN among the keys the result is in non-decreasing order. *)
Lemma sorted_nondecreasing (l : list A) :
  Forall (fun y => is_nan (key y) = false) l -> nondecreasing key (sorted key l).
Proof.
  intros H. apply sorted_fold_nondecreasing; [exact H | constructor | constructor].
Qed.

Lemma insert_by_last (x : A) (l : list A) :
  Forall (fun y => le (key y) (key x) = true) l ->
  insert_by key x l = l ++ [x].
Proof.
  induction 1 as [|y r Hy Hr IH]; cbn [insert_by]; [reflexivity|].
  rewrite (le_not_lt _ _ Hy), IH. reflexivity.
Qed.

Lemma nondecreasing_app_inv (l1 l2 : list A) :
  nondecreasing key (l1 ++ l2) ->
  nondecreasing key l1 /\ nondecreasing key l2
  /\ Forall (fun a => Forall (fun b => le (key a) (key b) = true) l2) l1.
Proof.
  induction l1 as [|a l1 IH]; cbn [app]; intros H.
  - repeat split; [constructor | exact H | constructor].
  - apply StronglySorted_inv in H as [Hs Ha].
    destruct (IH Hs) as (H1 & H2 & H3).
    apply Forall_app in Ha as [Ha1 Ha2].
    repeat split; [now constructor | exact H2 | now constructor].
Qed.

Lemma sorted_fold_id (l acc : list A) :
  nondecreasing key (acc ++ l) ->
  fold_left (fun acc x => insert_by key x acc) l acc = acc ++ l.
Proof.
  revert acc. induction l as [|x l IH]; intros acc Hs; cbn [fold_left].
  - now rewrite app_nil_r.
  - rewrite insert_by_last.
    + rewrite IH; rewrite <- app_assoc; [reflexivity | exact Hs].
    + apply nondecreasing_app_inv in Hs as (_ & _ & H).
      eapply Forall_impl; [exact H|]. intros a Ha. cbn in Ha.
      now apply Forall_cons_iff in Ha as [Ha _].
Qed.

(** Sorting a list that is in order gives the list back. *)
Lemma sorted_id (l : list A) : nondecreasing key l -> sorted key l = l.
Proof. intros H. apply (sorted_fold_id l [] H). Qed.

Lemma nondecreasing_firstn (n : nat) (l : list A) :
  nondecreasing key l -> nondecreasing key (firstn n l).
Proof.
  intros H. rewrite <- (firstn_skipn n l) in H.
  now apply nondecreasing_app_inv in H as [H _].
Qed.
End SortingFacts.

Lemma slice_to_firstn {A : Type} (stop : Z) (l : list A) :
  exists n, slice_to stop l = firstn n l.
Proof. unfold slice_to. eauto. Qed.

Lemma slice_to_length {A : Type} (stop : Z) (l : list A) :
  (0 <= stop)%Z -> (Z.of_nat (length (slice_to stop l)) <= stop)%Z.
Proof.
  intros H. unfold slice_to. rewrite length_firstn.
  destruct (Z.ltb_spec stop 0); lia.
Qed.

(** A negative [stop] counts from the end. *)
Lemma slice_to_negative_length {A : Type} (stop : Z) (l : list A) :
  (stop < 0)%Z ->
  Z.of_nat (length (slice_to stop l)) = Z.max 0 (Z.of_nat (length l) + stop).
Proof.
  intros H. unfold slice_to. rewrite length_firstn.
  destruct (Z.ltb_spec stop 0); lia.
Qed.

Lemma slice_to_incl {A : Type} (stop : Z) (l : list A) (x : A) :
  In x (slice_to stop l) -> In x l.
Proof.
  destruct (slice_to_firstn stop l) as [n ->].
  intros H. rewrite <- (firstn_skipn n l). apply in_or_app. now left.
Qed.

Example slice_to_examples :
  slice_to 2 [1; 2; 3]%nat = [1; 2]%nat
  /\ slice_to 7 [1; 2; 3]%nat = [1; 2; 3]%nat
  /\ slice_to (-1) [1; 2; 3]%nat = [1; 2]%nat
  /\ slice_to (-5) [1; 2; 3]%nat = @nil nat.
Proof. repeat split. Qed.

End PyListFacts.


(** ** The retrieval pipeline *)

Section PipelineFacts.
Variable self : RAGSystem.
Import PyStr PyStrFacts PyList PyListFacts PyFloat PyFloatFacts.
Local Open Scope list_scope.

Abbreviation dist := doc_distance.
Abbreviation field := (embedding_field self).

(** A successful comprehension is the plain filter, and every document
    within the threshold had the property. *)
Lemma filter_results_ok (query : string) (thr : spec_float)
      (objects docs : list Doc) :
  filter_results self query thr objects = Ok docs ->
  docs = List.filter (kept self query thr) objects.
Proof.
  revert docs. induction objects as [|doc rest IH]; intros docs;
    cbn [filter_results List.filter].
  - now intros [= <-].
  - unfold kept at 1. destruct (le (dist doc) thr); cbn [andb].
    + destruct (content_of self doc) as [text|e]; [|discriminate].
      destruct (filter_results self query thr rest) as [k|e]; [|discriminate].
      intros [= <-]. rewrite (IH k eq_refl).
      now destruct (is_informative_content text query).
    + apply IH.
Qed.

Lemma filter_results_total (query : string) (thr : spec_float)
      (objects : list Doc) :
  Forall (fun doc => is_Some (properties doc !! field)) objects ->
  exists docs, filter_results self query thr objects = Ok docs.
Proof.
  induction 1 as [|doc rest [text Ht] _ [k IH]]; cbn [filter_results].
  - eauto.
  - unfold content_of. rewrite Ht, IH. destruct (le _ _); eauto.
Qed.

Lemma kept_within (query : string) (thr : spec_float) (doc : Doc) :
  kept self query thr doc = true -> le (dist doc) thr = true.
Proof. unfold kept. intros H. now apply andb_true_iff in H as [H _]. Qed.

(** What a call of the retriever does: one query to the store, then the
    filter, the sort and the slice. *)
Lemma retrieve_run (query : string) (limit : Z) (thr : spec_float)
      (t : list event) :
  retrieve_relevant_context self query limit thr t =
  (match near_vector self (encode self query) 100 [field] with
   | Ok objects =>
       match filter_results self query thr objects with
       | Ok docs => Ok (slice_to limit (sorted dist docs))
       | Raise e => Raise e
       end
   | Raise e => Raise e
   end,
   t ++ [EvNearVector (encode self query) 100 [field]]).
Proof.
  unfold retrieve_relevant_context, bind, emit, lift, ret. cbn.
  destruct (near_vector self _ _ _) as [objects|e]; [|reflexivity].
  now destruct (filter_results self query thr objects).
Qed.

(** The retriever returns when the store answers and every object of the
    answer has the embedded field. *)
Lemma retrieve_returns (query : string) (limit : Z) (thr : spec_float)
      (t : list event) (objects : list Doc) :
  near_vector self (encode self query) 100 [field] = Ok objects ->
  Forall (fun doc => is_Some (properties doc !! field)) objects ->
  exists docs,
    fst (retrieve_relevant_context self query limit thr t) = Ok docs.
Proof.
  intros Hn Hf. rewrite retrieve_run, Hn.
  destruct (filter_results_total query thr objects Hf) as [k ->]. cbn. eauto.
Qed.

(** C1, amended. The list returned by the retriever is in non-decreasing
    order of distance, every returned distance is at most the threshold, the
    list is the sorted list of the kept candidates cut at [limit] (so the
    candidates beyond the threshold are gone before sorting and cutting), and
    for a limit that is not negative its length is at most the limit. *)
Theorem retrieve_sorted_within_limit (query : string) (limit : Z)
        (thr : spec_float) (t t' : list event) (docs : list Doc) :
  retrieve_relevant_context self query limit thr t = (Ok docs, t') ->
  nondecreasing dist docs
  /\ Forall (fun doc => le (dist doc) thr = true) docs
  /\ ((0 <= limit)%Z -> (Z.of_nat (length docs) <= limit)%Z)
  /\ exists objects,
       near_vector self (encode self query) 100 [field] = Ok objects
       /\ docs = slice_to limit
                   (sorted dist (List.filter (kept self query thr) objects)).
Proof.
  rewrite retrieve_run.
  destruct (near_vector self _ _ _) as [objects|e]; [|discriminate].
  destruct (filter_results self query thr objects) as [k|e] eqn:Hk;
    [|discriminate].
  intros [= <- _]. apply filter_results_ok in Hk. subst k.
  set (cands := List.filter (kept self query thr) objects).
  assert (Hthr : Forall (fun doc => le (dist doc) thr = true) cands).
  { apply List.Forall_forall. intros doc Hd. apply filter_In in Hd as [_ Hd].
    now apply kept_within in Hd. }
  assert (Hnan : Forall (fun doc => is_nan (dist doc) = false) cands).
  { eapply Forall_impl; [exact Hthr|]. intros doc Hd.
    now apply le_not_nan in Hd as [Hd _]. }
  repeat split.
  - destruct (slice_to_firstn limit (sorted dist cands)) as [n ->].
    now apply nondecreasing_firstn, sorted_nondecreasing.
  - apply List.Forall_forall. intros doc Hd. apply slice_to_incl in Hd.
    apply (Permutation_in _ (sorted_perm dist cands)) in Hd.
    rewrite List.Forall_forall in Hthr. now apply Hthr.
  - apply slice_to_length.
  - now exists objects.
Qed.

(** The texts of documents that all have the embedded field. *)
Lemma contents_of_total (docs : list Doc) :
  Forall (fun doc => is_Some (properties doc !! field)) docs ->
  exists texts, contents_of self docs = Ok texts.
Proof.
  induction 1 as [|doc rest [text Ht] _ [texts IH]]; cbn [contents_of].
  - eauto.
  - unfold content_of. rewrite Ht, IH. eauto.
Qed.

Lemma contents_of_in (docs : list Doc) (texts : list string) (doc : Doc)
      (text : string) :
  contents_of self docs = Ok texts -> In doc docs ->
  content_of self doc = Ok text -> In text texts.
Proof.
  revert texts. induction docs as [|d rest IH]; intros texts;
    cbn [contents_of]; [now intros _ []|].
  destruct (content_of self d) as [x|e] eqn:Hd; [|discriminate].
  destruct (contents_of self rest) as [xs|e]; [|discriminate].
  intros [= <-] [->|Hin] Ht.
  - left. congruence.
  - right. now apply (IH xs).
Qed.

Lemma contains_refl (s : string) : contains s s = true.
Proof. apply contains_spec. exists "", "". cbn. now rewrite app_empty_r. Qed.

Lemma contains_join (sep x : string) (l : list string) :
  In x l -> contains x (join sep l) = true.
Proof.
  induction l as [|y [|z r] IH]; [intros [] | |].
  - intros [->|[]]. apply contains_refl.
  - intros [->|Hin]; cbn [join].
    + apply contains_app_r, contains_refl.
    + apply contains_app_l, contains_app_l. now apply IH.
Qed.

Lemma contains_trans (a b c : string) :
  contains a b = true -> contains b c = true -> contains a c = true.
Proof.
  rewrite !contains_spec. intros (x & y & ->) (u & v & ->).
  exists (u +:+ x), (y +:+ v). now rewrite !PyStrFacts.app_assoc.
Qed.

(** The template holds the context block and the query as they are. *)
Lemma prompt_template_context (context_str query : string) :
  contains context_str (prompt_template context_str query) = true.
Proof.
  unfold prompt_template. do 5 apply contains_app_l.
  apply contains_app_r, contains_refl.
Qed.

Lemma prompt_template_query (context_str query : string) :
  contains query (prompt_template context_str query) = true.
Proof.
  unfold prompt_template. do 9 apply contains_app_l.
  apply contains_app_r, contains_refl.
Qed.

(** C8. For retrieved messages (each has the embedded field) the prompt
    builder returns the template filled with the query and with the texts of
    the messages, joined by a blank line, in the order of [sorted], which is
    a rearrangement of the context, in non-decreasing order of distance when
    the distances are numbers; the prompt contains the query and every text;
    and a context that is already in order keeps its order. *)
Theorem generate_prompt_contents (query : string) (context : list Doc) :
  Forall (fun doc => is_Some (properties doc !! field)) context ->
  exists (ordered : list Doc) (texts : list string) (prompt : string),
    generate_prompt self query context = Ok prompt
    /\ Permutation ordered context
    /\ (Forall (fun doc => is_nan (dist doc) = false) context ->
        nondecreasing dist ordered)
    /\ contents_of self ordered = Ok texts
    /\ prompt = prompt_template (join (nl +:+ nl) texts) query
    /\ contains query prompt = true
    /\ (forall doc text, In doc context -> content_of self doc = Ok text ->
                         contains text prompt = true)
    /\ (nondecreasing dist context -> ordered = context).
Proof.
  intros Hf.
  assert (Hf' : Forall (fun doc => is_Some (properties doc !! field))
                       (sorted dist context)).
  { apply List.Forall_forall. intros doc Hd.
    apply (Permutation_in _ (sorted_perm dist context)) in Hd.
    rewrite List.Forall_forall in Hf. now apply Hf. }
  destruct (contents_of_total _ Hf') as [texts Ht].
  exists (sorted dist context), texts,
    (prompt_template (join (nl +:+ nl) texts) query).
  unfold generate_prompt. rewrite Ht.
  repeat split.
  - apply sorted_perm.
  - apply sorted_nondecreasing.
  - apply prompt_template_query.
  - intros doc text Hd Hc.
    eapply contains_trans; [|apply prompt_template_context].
    apply contains_join. apply (contents_of_in _ _ doc text Ht); [|exact Hc].
    apply (Permutation_in _ (Permutation_sym (sorted_perm dist context))), Hd.
  - apply sorted_id.
Qed.

Local Ltac trace_case :=
  cbn; rewrite <- ?List.app_assoc; cbn;
  split; [reflexivity|];
  split; [intros H; cbn in H; intuition discriminate
         | intros H; try discriminate H; split; reflexivity].

(** The body of [query] only appends to the trace, never a [close]. *)
Lemma query_run (user_query : string) (t : list event) :
  exists r added,
    query self user_query t = (r, t ++ added ++ [EvClose])
    /\ ~ In EvClose added
    /\ (fst (retrieve_relevant_context self user_query default_limit
               default_distance_threshold t) = Ok [] ->
        r = Ok no_context_message
        /\ added = [EvNearVector (encode self user_query) 100 [field]]).
Proof.
  unfold query, try_finally, bind at 1.
  rewrite retrieve_run.
  set (ev := EvNearVector (encode self user_query) 100 [field]).
  destruct (match near_vector self _ _ _ with Ok _ => _ | Raise e => _ end)
    as [[|doc docs]|e] eqn:Hr.
  - exists (Ok no_context_message), [ev]. trace_case.
  - unfold bind, lift, emit, ret, get_completion. cbn.
    destruct (generate_prompt self user_query (doc :: docs)) as [prompt|e].
    + destruct (chat_completion self prompt) as [answer|e].
      * exists (Ok answer),
          [ev; EvPrint ("Prompt " +:+ prompt); EvCompletion prompt].
        trace_case.
      * exists (Raise e),
          [ev; EvPrint ("Prompt " +:+ prompt); EvCompletion prompt].
        trace_case.
    + exists (Raise e), [ev]. trace_case.
  - exists (Raise e), [ev]. trace_case.
Qed.

(** C3. When retrieval returns the empty list, [query] returns the fixed
    message as a value, the completion API is not called, and the only
    events are the query to the store and the close. *)
Theorem query_empty_retrieval (user_query : string) (t : list event) :
  fst (retrieve_relevant_context self user_query default_limit
         default_distance_threshold t) = Ok [] ->
  query self user_query t
  = (Ok no_context_message,
     t ++ [EvNearVector (encode self user_query) 100 [field]; EvClose])
  /\ forall prompt, In (EvCompletion prompt) (snd (query self user_query t)) ->
                    In (EvCompletion prompt) t.
Proof.
  intros He.
  destruct (query_run user_query t) as (r & added & Hq & _ & Hempty).
  destruct (Hempty He) as [-> ->]. rewrite Hq. cbn [app]. split; [reflexivity|].
  intros prompt Hin. cbn [snd] in Hin.
  apply in_app_or in Hin as [Hin|[Hin|[Hin|[]]]]; [exact Hin | |]; discriminate.
Qed.

(** C9. On every exit of [query], a returned value or a raised exception,
    the trace ends with the close of the connection, and the close happens
    once. *)
Theorem query_closes_connection (user_query : string) (t : list event) :
  exists r added,
    query self user_query t = (r, t ++ added ++ [EvClose])
    /\ ~ In EvClose added.
Proof.
  destruct (query_run user_query t) as (r & added & Hq & Hc & _).
  now exists r, added.
Qed.
End PipelineFacts.


(** ** The pipeline on the example stores *)

Section PipelineExamples.
Import PyStr PyList PyFloat.
Local Open Scope list_scope.

(** C1, an instance: the example store, the default limit and threshold. *)
Lemma retrieve_sorted_within_limit_example :
  retrieve_relevant_context example_system "is it raining" 7 f0_75 []
  = (Ok example_retrieved, [EvNearVector [] 100 ["content"]])
  /\ nondecreasing doc_distance example_retrieved
  /\ Forall (fun doc => le (doc_distance doc) f0_75 = true) example_retrieved
  /\ ((0 <= 7)%Z -> (Z.of_nat (length example_retrieved) <= 7)%Z).
Proof.
  split; [vm_compute; reflexivity|].
  destruct (retrieve_sorted_within_limit example_system "is it raining" 7
              f0_75 [] [EvNearVector [] 100 ["content"]] example_retrieved)
    as (H1 & H2 & H3 & _); [vm_compute; reflexivity|].
  repeat split; assumption.
Defined.

(** C1 as stated fails for a negative limit: [[:-1]] drops the last of the
    two kept messages, and one message is more than [-1]. *)
Lemma retrieve_negative_limit_exceeds :
  exists docs t',
    retrieve_relevant_context example_system "is it raining" (-1) f0_75 []
    = (Ok docs, t')
    /\ ~ (Z.of_nat (length docs) <= -1)%Z.
Proof.
  eexists. eexists. split; [vm_compute; reflexivity|]. cbn. lia.
Qed.

(** C8, an instance: the prompt for the retrieved example messages. *)
Lemma generate_prompt_contents_example :
  Forall (fun doc => is_Some (properties doc !! "content")) example_retrieved
  /\ exists prompt,
       generate_prompt example_system "is it raining" example_retrieved
       = Ok prompt
       /\ contains "is it raining" prompt = true
       /\ contains "it rained heavily all night and flooded the street" prompt
          = true.
Proof.
  assert (Hf : Forall (fun doc => is_Some (properties doc !! "content"))
                      example_retrieved).
  { repeat (constructor; [eexists; vm_compute; reflexivity|]). constructor. }
  split; [exact Hf|].
  destruct (generate_prompt_contents example_system "is it raining"
              example_retrieved Hf)
    as (ordered & texts & prompt & Hg & _ & _ & _ & _ & Hq & Hc & _).
  exists prompt. split; [exact Hg|]. split; [exact Hq|].
  apply (Hc (example_doc
               "it rained heavily all night and flooded the street" f0_5)).
  - right. left. reflexivity.
  - vm_compute. reflexivity.
Defined.

(** C3, an instance: a store without messages. *)
Lemma query_empty_retrieval_example :
  fst (retrieve_relevant_context example_empty_store "is it raining"
         (default_limit) (default_distance_threshold) []) = Ok []
  /\ query example_empty_store "is it raining" []
     = (Ok no_context_message, [EvNearVector [] 100 ["content"]; EvClose]).
Proof.
  split; [reflexivity|].
  apply (query_empty_retrieval example_empty_store "is it raining" []).
  reflexivity.
Defined.

(** The four exits of [query]: the fixed message, an answer, a failure of
    the store and a failure of the completion API. *)
Example query_answer :
  exists prompt,
    query example_system "is it raining" []
    = (Ok "It rained all night.",
       [EvNearVector [] 100 ["content"]; EvPrint ("Prompt " +:+ prompt);
        EvCompletion prompt; EvClose]).
Proof. eexists. vm_compute. reflexivity. Qed.

Example query_store_down :
  query example_store_down "is it raining" []
  = (Raise (ExternalError "connection refused"),
     [EvNearVector [] 100 ["content"]; EvClose]).
Proof. reflexivity. Qed.

Example query_api_down :
  exists prompt,
    query example_api_down "is it raining" []
    = (Raise (ExternalError "rate limit exceeded"),
       [EvNearVector [] 100 ["content"]; EvPrint ("Prompt " +:+ prompt);
        EvCompletion prompt; EvClose]).
Proof. eexists. vm_compute. reflexivity. Qed.
End PipelineExamples.

(** ** Matching a sequence of greedy pieces *)

Module ReFacts.
Import PyStr PyStrFacts Re.

Lemma take_drop (n : nat) (s : string) : take n s +:+ drop n s = s.
Proof.
  revert n. induction s as [|c s IH]; intros [|n]; cbn; try reflexivity.
  now rewrite IH.
Qed.




Lemma run_length_le (p : ascii -> bool) (s : string) :
  (run_length p s <= String.length s)%nat.
Proof. induction s as [|c s IH]; cbn; [lia | destruct (p c); lia]. Qed.

Lemma all_chars_take (p : ascii -> bool) (n : nat) (s : string) :
  (n <= run_length p s)%nat -> all_chars p (take n s) = true.
Proof.
  revert n. induction s as [|c s IH]; intros [|n]; cbn; try reflexivity.
  destruct (p c); [|lia]. intros H. apply IH. lia.
Qed.

Lemma length_take (n : nat) (s : string) :
  (n <= String.length s)%nat -> String.length (take n s) = n.
Proof.
  revert n. induction s as [|c s IH]; intros [|n]; cbn; try reflexivity; try lia.
  intros H. rewrite IH; lia.
Qed.



(** Whatever attempt succeeds took between [lo] and [n] characters. *)
Lemma attempt_sound (continue : string -> option (list string)) (lo n : nat)
      (s : string) (r : list string) :
  (lo <= n)%nat -> attempt continue lo s n = Some r ->
  exists m chunks,
    (lo <= m <= n)%nat /\ continue (drop m s) = Some chunks
    /\ r = take m s :: chunks.
Proof.
  induction n as [|n IH]; cbn [attempt]; intros Hlo.
  - destruct (continue (drop 0 s)) as [chunks|] eqn:E; [|discriminate].
    intros [= <-]. exists 0%nat, chunks. repeat split; [lia | lia | exact E].
  - destruct (continue (drop (S n) s)) as [chunks|] eqn:E.
    + intros [= <-]. exists (S n), chunks. repeat split; [lia | lia | exact E].
    + destruct (Nat.leb_spec lo n) as [Hle|]; [|discriminate].
      intros H. destruct (IH Hle H) as (m & chunks & Hm & Hc & ->).
      exists m, chunks. repeat split; [lia | lia | exact Hc].
Qed.


(** The texts of a match conform to their pieces and are the front of the
    subject. *)
Lemma match_seq_sound (items : list item) (s : string) (chunks : list string) :
  match_seq items s = Some chunks ->
  Forall2 conforms items chunks
  /\ exists rest, s = fold_right String.append rest chunks.
Proof.
  revert s chunks. induction items as [|it items IH]; intros s chunks;
    cbn [match_seq].
  - intros [= <-]. split; [constructor | now exists s].
  - destruct (Nat.ltb_spec (greedy_length it s) (lo it)) as [|Hlo];
      [discriminate|].
    intros H. apply attempt_sound in H as (m & cs & Hm & Hc & ->); [|exact Hlo].
    destruct (IH _ _ Hc) as [Hf [rest Hrest]]. split.
    + constructor; [|exact Hf].
      assert (Hrun : (m <= run_length (cls it) s)%nat).
      { unfold greedy_length in Hm. destruct (hi it); lia. }
      repeat split.
      * now apply all_chars_take.
      * rewrite length_take; [lia|]. pose proof (run_length_le (cls it) s). lia.
      * intros h Hh. unfold greedy_length in Hm. rewrite Hh in Hm.
        rewrite length_take; [lia|]. pose proof (run_length_le (cls it) s). lia.
    + exists rest. cbn [fold_right]. rewrite <- Hrest. symmetry. apply take_drop.
Qed.





End ReFacts.



(** ** What [strptime] makes of the digits of a line *)

Module StrptimeDigits.
Import PyStr Strptime StrptimeSteps LineShape.
Local Open Scope Z_scope.





















End StrptimeDigits.
(** ** The message parser *)

Section IndexerFacts.
Variable model_encode : string -> result (list spec_float).
Import PyStr PyStrFacts Re ReFacts LineShape.
Local Open Scope list_scope.










End IndexerFacts.

(** ** Dates and times of the chat export *)

Module StrptimeFacts.
Import PyStr Strptime.
Local Open Scope Z_scope.

Lemma in_range_bounds (a b c : ascii) :
  in_range a b c = true -> digit_value a <= digit_value c <= digit_value b.
Proof.
  unfold in_range, digit_value. rewrite andb_true_iff, !N.leb_le. lia.
Qed.

Lemma isdigit_bounds (c : ascii) : isdigit c = true -> 0 <= digit_value c <= 9.
Proof.
  unfold isdigit, digit_value. cbv zeta. rewrite andb_true_iff, !N.leb_le. lia.
Qed.

Local Ltac bounds :=
  repeat match goal with
         | H : (_ && _)%bool = true |- _ => apply andb_true_iff in H as [? ?]
         | H : in_range _ _ _ = true |- _ =>
             apply in_range_bounds in H;
             change (digit_value "0") with 0 in H;
             change (digit_value "1") with 1 in H;
             change (digit_value "2") with 2 in H;
             change (digit_value "3") with 3 in H;
             change (digit_value "5") with 5 in H;
             change (digit_value "9") with 9 in H
         | H : isdigit _ = true |- _ => apply isdigit_bounds in H
         end.

Local Ltac directive_cases :=
  repeat match goal with
         | |- context [if ?b then _ else _] => destruct b eqn:?
         end;
  try discriminate;
  intros [= <- _]; bounds; lia.

Lemma directive_m_range (s r : string) (m : Z) :
  directive_m s = Some (m, r) -> 1 <= m <= 12.
Proof.
  unfold directive_m. destruct s as [|c1 [|c2 s]]; [discriminate|..];
    directive_cases.
Qed.

Lemma directive_d_range (s r : string) (d : Z) :
  directive_d s = Some (d, r) -> 1 <= d <= 31.
Proof.
  unfold directive_d. destruct s as [|c1 [|c2 s]]; [discriminate|..];
    directive_cases.
Qed.

Lemma directive_y_range (s r : string) (y : Z) :
  directive_y s = Some (y, r) -> 0 <= y <= 99.
Proof.
  unfold directive_y. destruct s as [|c1 [|c2 s]]; [discriminate..|];
    directive_cases.
Qed.

Lemma directive_H_range (s r : string) (h : Z) :
  directive_H s = Some (h, r) -> 0 <= h <= 23.
Proof.
  unfold directive_H. destruct s as [|c1 [|c2 s]]; [discriminate|..];
    directive_cases.
Qed.

Lemma directive_M_range (s r : string) (m : Z) :
  directive_M s = Some (m, r) -> 0 <= m <= 59.
Proof.
  unfold directive_M. destruct s as [|c1 [|c2 s]]; [discriminate|..];
    directive_cases.
Qed.

(** What [strptime] returns is a date of the calendar between 1969 and 2068
    with a time of the day. *)
Lemma strptime_calendar (s : string) (dt : datetime) :
  strptime s = Ok dt ->
  1969 <= year dt <= 2068
  /\ 1 <= month dt <= 12
  /\ 1 <= day dt <= days_in_month (year dt) (month dt)
  /\ 0 <= hour dt <= 23
  /\ 0 <= minute dt <= 59.
Proof.
  unfold strptime.
  destruct (directive_m s) as [[m s1]|] eqn:Em; cbn; [|discriminate].
  destruct (expect "/" s1) as [s2|]; cbn; [|discriminate].
  destruct (directive_d s2) as [[d s3]|] eqn:Ed; cbn; [|discriminate].
  destruct (expect "/" s3) as [s4|]; cbn; [|discriminate].
  destruct (directive_y s4) as [[yy s5]|] eqn:Ey; cbn; [|discriminate].
  destruct (expect_spaces s5) as [s6|]; cbn; [|discriminate].
  destruct (directive_H s6) as [[H s7]|] eqn:EH; cbn; [|discriminate].
  destruct (expect ":" s7) as [s8|]; cbn; [|discriminate].
  destruct (directive_M s8) as [[Mi s9]|] eqn:EM; cbn; [|discriminate].
  destruct s9; [|discriminate].
  destruct (Z.leb_spec d (days_in_month (full_year yy) m)); [|discriminate].
  intros [= <-]. cbn [year month day hour minute].
  apply directive_m_range in Em. apply directive_d_range in Ed.
  apply directive_y_range in Ey. apply directive_H_range in EH.
  apply directive_M_range in EM.
  repeat split; try lia; unfold full_year; destruct (Z.leb_spec yy 68); lia.
Qed.

Example strptime_new_year_eve :
  strptime "12/31/23 23:59"
  = Ok {| year := 2023; month := 12; day := 31; hour := 23; minute := 59 |}.
Proof. reflexivity. Qed.

Example strptime_last_century :
  strptime "1/5/70 0:07"
  = Ok {| year := 1970; month := 1; day := 5; hour := 0; minute := 7 |}.
Proof. reflexivity. Qed.

Example strptime_leap_day :
  strptime "2/29/24 3:59"
  = Ok {| year := 2024; month := 2; day := 29; hour := 3; minute := 59 |}.
Proof. reflexivity. Qed.

Example strptime_no_leap_day : exists e, strptime "2/29/23 3:59" = Raise e.
Proof. eexists. reflexivity. Qed.

Example strptime_month_13 : exists e, strptime "13/1/23 3:59" = Raise e.
Proof. eexists. reflexivity. Qed.

Example strptime_hour_24 : exists e, strptime "1/1/23 24:00" = Raise e.
Proof. eexists. reflexivity. Qed.

Example strptime_minute_60 : exists e, strptime "1/1/23 12:60" = Raise e.
Proof. eexists. reflexivity. Qed.

Example isoformat_pads :
  isoformat {| year := 2024; month := 2; day := 9; hour := 3; minute := 5 |}
  = "2024-02-09T03:05:00".
Proof. reflexivity. Qed.

End StrptimeFacts.

(** ** The parser on lines of the export *)

Section IndexerExamples.
Import LineShape.


(** A day that the month does not have, an hour that the day does not have,
    and lines of another shape give no record. *)
Example parse_message_february_30 :
  parse_message (fun _ => Ok []) "2/30/23, 23:59 - Alice Smith: Hello" = Ok None.
Proof. reflexivity. Qed.

Example parse_message_hour_24 :
  parse_message (fun _ => Ok []) "2/28/23, 24:00 - Alice Smith: Hello" = Ok None.
Proof. reflexivity. Qed.

Example parse_message_no_space_after_colon :
  parse_message (fun _ => Ok []) "2/28/23, 23:59 - Alice Smith:Hello" = Ok None.
Proof. reflexivity. Qed.

Example parse_message_continuation_line :
  parse_message (fun _ => Ok []) "and this is the second line of a message"
  = Ok None.
Proof. reflexivity. Qed.

Example parse_message_system_line :
  parse_message (fun _ => Ok [])
    "1/2/23, 9:15 - Messages and calls are end-to-end encrypted"
  = Ok None.
Proof. reflexivity. Qed.
End IndexerExamples.


(** * Further properties of the code *)

(** ** The retriever beyond its order and its bounds *)

Section RetrieverMore.
Variable self : RAGSystem.
Import PyStr PyStrFacts PyList PyListFacts PyFloat PyFloatFacts.
Local Open Scope list_scope.

Abbreviation dist := doc_distance.
Abbreviation field := (embedding_field self).

Lemma le_nan_r (a b : spec_float) : is_nan b = true -> le a b = false.
Proof.
  intros Hb. destruct (le a b) eqn:E; [|reflexivity].
  apply le_not_nan in E as [_ E]. congruence.
Qed.

Lemma kept_informative (query : string) (thr : spec_float) (doc : Doc) :
  kept self query thr doc = true ->
  exists text,
    properties doc !! field = Some text
    /\ is_informative_content text query = true.
Proof.
  unfold kept, content_of. intros H. apply andb_true_iff in H as [_ H].
  destruct (properties doc !! field) as [text|]; [|discriminate]. eauto.
Qed.

(** X1. Every message that the retriever returns is one of the objects that
    the store answered, has the embedded field, and its text passes the
    informativeness filter for the query. *)
Theorem retrieve_only_informative (query : string) (limit : Z)
        (thr : spec_float) (t t' : list event) (docs : list Doc) :
  retrieve_relevant_context self query limit thr t = (Ok docs, t') ->
  exists objects,
    near_vector self (encode self query) 100 [field] = Ok objects
    /\ Forall (fun doc =>
                 In doc objects
                 /\ exists text,
                      properties doc !! field = Some text
                      /\ is_informative_content text query = true) docs.
Proof.
  rewrite retrieve_run.
  destruct (near_vector self _ _ _) as [objects|e]; [|discriminate].
  destruct (filter_results self query thr objects) as [k|e] eqn:Hk;
    [|discriminate].
  intros [= <- _]. apply filter_results_ok in Hk. subst k.
  exists objects. split; [reflexivity|].
  apply List.Forall_forall. intros doc Hd. apply slice_to_incl in Hd.
  apply (Permutation_in _ (sorted_perm dist _)) in Hd.
  apply filter_In in Hd as [Hin Hk]. split; [exact Hin|].
  now apply (kept_informative query thr).
Qed.

(** X2. For a limit that is not negative the retriever returns the closest
    of the kept candidates: the number returned is the smaller of the limit
    and the number of kept candidates, and no candidate that is left out is
    closer than a returned one. *)
Theorem retrieve_closest (query : string) (limit : Z) (thr : spec_float)
        (t t' : list event) (docs objects : list Doc) :
  (0 <= limit)%Z ->
  near_vector self (encode self query) 100 [field] = Ok objects ->
  retrieve_relevant_context self query limit thr t = (Ok docs, t') ->
  Z.of_nat (length docs)
  = Z.min limit (Z.of_nat (length (List.filter (kept self query thr) objects)))
  /\ exists left_out,
       Permutation (docs ++ left_out) (List.filter (kept self query thr) objects)
       /\ Forall (fun doc =>
                    Forall (fun other => le (dist doc) (dist other) = true)
                           left_out) docs.
Proof.
  intros Hl Hn. rewrite retrieve_run, Hn.
  destruct (filter_results self query thr objects) as [k|e] eqn:Hk;
    [|discriminate].
  intros [= <- _]. apply filter_results_ok in Hk. subst k.
  set (cands := List.filter (kept self query thr) objects).
  assert (Hnan : Forall (fun doc => is_nan (dist doc) = false) cands).
  { apply List.Forall_forall. intros doc Hd. apply filter_In in Hd as [_ Hd].
    apply kept_within, le_not_nan in Hd. tauto. }
  pose proof (sorted_perm dist cands) as Hp.
  pose proof (sorted_nondecreasing dist cands Hnan) as Hs.
  pose proof (Permutation_length Hp) as Hlen.
  unfold slice_to. destruct (Z.ltb_spec limit 0) as [|_]; [lia|].
  set (n := Z.to_nat (Z.min limit (Z.of_nat (length (sorted dist cands))))).
  split.
  - rewrite length_firstn. subst n. lia.
  - exists (skipn n (sorted dist cands)). rewrite firstn_skipn. split; [exact Hp|].
    rewrite <- (firstn_skipn n (sorted dist cands)) in Hs.
    now apply nondecreasing_app_inv in Hs as (_ & _ & Hs).
Qed.

Lemma filter_results_raise (query : string) (thr : spec_float)
      (objects : list Doc) (e : exn) :
  filter_results self query thr objects = Raise e <->
  e = KeyError field
  /\ Exists (fun doc => le (dist doc) thr = true
                        /\ properties doc !! field = None) objects.
Proof.
  induction objects as [|doc rest IH]; cbn [filter_results].
  - split; [discriminate | intros [_ H]; now apply Exists_nil in H].
  - rewrite Exists_cons. unfold content_of at 1.
    destruct (le (dist doc) thr) eqn:Hle.
    + destruct (properties doc !! field) as [text|] eqn:Hf.
      * destruct (filter_results self query thr rest) as [k|e'] eqn:Hr.
        -- split; [discriminate|]. intros [He [[_ H]|H]]; [discriminate|].
           destruct IH as [_ IH]. now specialize (IH (conj He H)).
        -- split.
           ++ intros [= ->]. destruct IH as [IH _].
              destruct (IH eq_refl) as [He Hex]. auto.
           ++ intros [He [[_ H]|H]]; [discriminate|].
              destruct IH as [_ IH]. now rewrite (IH (conj He H)).
      * split; [intros [= <-]; auto | now intros [-> _]].
    + split.
      * intros H. apply IH in H as [He Hex]. auto.
      * intros [He [[H _]|H]]; [discriminate|]. apply IH. auto.
Qed.

(** X3. When the store answers, the retriever raises exactly when an object
    within the threshold lacks the embedded field, and then it raises the
    [KeyError] of that field; objects beyond the threshold may lack it. *)
Theorem retrieve_missing_field (query : string) (limit : Z) (thr : spec_float)
        (t : list event) (objects : list Doc) :
  near_vector self (encode self query) 100 [field] = Ok objects ->
  (Exists (fun doc => le (dist doc) thr = true
                      /\ properties doc !! field = None) objects ->
   fst (retrieve_relevant_context self query limit thr t)
   = Raise (KeyError field))
  /\ (forall e,
         fst (retrieve_relevant_context self query limit thr t) = Raise e ->
         Exists (fun doc => le (dist doc) thr = true
                            /\ properties doc !! field = None) objects).
Proof.
  intros Hn. rewrite retrieve_run, Hn. cbn [fst]. split.
  - intros H.
    assert (E : filter_results self query thr objects = Raise (KeyError field))
      by (apply filter_results_raise; auto).
    now rewrite E.
  - intros e. destruct (filter_results self query thr objects) as [k|e'] eqn:E;
      [discriminate|].
    intros [= ->]. now apply filter_results_raise in E as [_ E].
Qed.

(** X4. With a threshold that is NaN no distance passes the comparison: the
    retriever returns the empty list for every answer of the store, without
    reading any property. *)
Theorem retrieve_nan_threshold (query : string) (limit : Z) (thr : spec_float)
        (t : list event) (objects : list Doc) :
  is_nan thr = true ->
  near_vector self (encode self query) 100 [field] = Ok objects ->
  fst (retrieve_relevant_context self query limit thr t) = Ok [].
Proof.
  intros Ht Hn. rewrite retrieve_run, Hn. cbn [fst].
  assert (E : filter_results self query thr objects = Ok []).
  { clear Hn. induction objects as [|doc rest IH]; cbn [filter_results];
      [reflexivity|]. now rewrite (le_nan_r _ _ Ht). }
  rewrite E. unfold slice_to. change (sorted dist []) with (@nil Doc).
  now rewrite firstn_nil.
Qed.

(** X5. The answers for two limits agree on their common part: with
    [0 <= k <= k'], what the retriever returns for the limit [k] is the first
    [k] messages of what it returns for [k']. *)
Theorem retrieve_limit_prefix (query : string) (k k' : Z) (thr : spec_float)
        (t t' : list event) (docs' : list Doc) :
  (0 <= k <= k')%Z ->
  retrieve_relevant_context self query k' thr t = (Ok docs', t') ->
  retrieve_relevant_context self query k thr t
  = (Ok (firstn (Z.to_nat k) docs'), t').
Proof.
  intros Hk. rewrite !retrieve_run.
  destruct (near_vector self _ _ _) as [objects|e]; [|discriminate].
  destruct (filter_results self query thr objects) as [c|e]; [|discriminate].
  intros [= <- <-]. f_equal. f_equal. unfold slice_to.
  destruct (Z.ltb_spec k 0), (Z.ltb_spec k' 0); try lia.
  rewrite firstn_firstn. f_equal. lia.
Qed.
End RetrieverMore.

(** ** The exits of the orchestrator and of the prompt builder *)

Section OrchestratorMore.
Variable self : RAGSystem.
Import PyStr PyStrFacts PyList PyListFacts PyFloat PyFloatFacts.
Local Open Scope list_scope.

Abbreviation dist := doc_distance.
Abbreviation field := (embedding_field self).

Lemma contents_of_raise (docs : list Doc) (e : exn) :
  contents_of self docs = Raise e <->
  e = KeyError field /\ Exists (fun doc => properties doc !! field = None) docs.
Proof.
  induction docs as [|doc rest IH]; cbn [contents_of].
  - split; [discriminate | intros [_ H]; now apply Exists_nil in H].
  - rewrite Exists_cons. unfold content_of at 1.
    destruct (properties doc !! field) as [text|] eqn:Hf.
    + destruct (contents_of self rest) as [texts|e'] eqn:Hr.
      * split; [discriminate|]. intros [He [H|H]]; [discriminate|].
        destruct IH as [_ IH]. now specialize (IH (conj He H)).
      * split.
        -- intros [= ->]. destruct IH as [IH _].
           destruct (IH eq_refl) as [He Hex]. auto.
        -- intros [He [H|H]]; [discriminate|].
           destruct IH as [_ IH]. now rewrite (IH (conj He H)).
    + split; [intros [= <-]; auto | now intros [-> _]].
Qed.

Lemma generate_prompt_missing_field_aux (query : string) (context : list Doc)
      (e : exn) :
  generate_prompt self query context = Raise e ->
  Exists (fun doc => properties doc !! field = None) context.
Proof.
  unfold generate_prompt. pose proof (sorted_perm dist context) as Hp.
  destruct (contents_of self (sorted dist context)) as [x|e'] eqn:E;
    [discriminate|].
  intros [= ->]. apply contents_of_raise in E as [_ E].
  apply List.Exists_exists in E as (doc & Hin & Hd).
  apply List.Exists_exists. exists doc. split; [|exact Hd].
  now apply (Permutation_in _ Hp).
Qed.

(** X6. The prompt builder raises exactly when a message of the context
    lacks the embedded field, and then it raises the [KeyError] of that
    field; otherwise it returns a prompt. *)
Theorem generate_prompt_missing_field (query : string) (context : list Doc) :
  (Exists (fun doc => properties doc !! field = None) context ->
   generate_prompt self query context = Raise (KeyError field))
  /\ (forall e, generate_prompt self query context = Raise e ->
                Exists (fun doc => properties doc !! field = None) context).
Proof.
  unfold generate_prompt.
  pose proof (sorted_perm dist context) as Hp. split.
  - intros H.
    assert (E : contents_of self (sorted dist context) = Raise (KeyError field)).
    { apply contents_of_raise. split; [reflexivity|].
      apply List.Exists_exists in H as (doc & Hin & Hd).
      apply List.Exists_exists. exists doc. split; [|exact Hd].
      now apply (Permutation_in _ (Permutation_sym Hp)). }
    now rewrite E.
  - intros e. fold (generate_prompt self query context).
    apply generate_prompt_missing_field_aux.
Qed.

(** What the retriever returns has the embedded field. *)
Lemma retrieve_docs_have_field (query : string) (limit : Z) (thr : spec_float)
      (t : list event) (docs : list Doc) :
  fst (retrieve_relevant_context self query limit thr t) = Ok docs ->
  Forall (fun doc => is_Some (properties doc !! field)) docs.
Proof.
  rewrite retrieve_run. cbn [fst].
  destruct (near_vector self _ _ _) as [objects|e]; [|discriminate].
  destruct (filter_results self query thr objects) as [k|e] eqn:Hk;
    [|discriminate].
  intros [= <-]. apply filter_results_ok in Hk. subst k.
  apply List.Forall_forall. intros doc Hd. apply slice_to_incl in Hd.
  apply (Permutation_in _ (sorted_perm dist _)) in Hd.
  apply filter_In in Hd as [_ Hd]. unfold kept, content_of in Hd.
  apply andb_true_iff in Hd as [_ Hd].
  destruct (properties doc !! field); [eauto | discriminate].
Qed.

(** X7. When retrieval returns messages, building the prompt cannot fail,
    the completion API is called once, with the prompt built from the query
    and those messages, and [query] ends the way that call ends: with its
    answer or with its exception, after closing the connection. *)
Theorem query_completes_with_built_prompt (user_query : string)
        (t : list event) (doc : Doc) (docs : list Doc) :
  fst (retrieve_relevant_context self user_query default_limit
         default_distance_threshold t) = Ok (doc :: docs) ->
  exists prompt,
    generate_prompt self user_query (doc :: docs) = Ok prompt
    /\ query self user_query t
       = (chat_completion self prompt,
          t ++ [EvNearVector (encode self user_query) 100 [field];
                EvPrint ("Prompt " +:+ prompt);
                EvCompletion prompt;
                EvClose]).
Proof.
  intros Hr. pose proof (retrieve_docs_have_field _ _ _ _ _ Hr) as Hf.
  assert (Hg : exists prompt,
             generate_prompt self user_query (doc :: docs) = Ok prompt).
  { destruct (generate_prompt self user_query (doc :: docs)) as [p|e] eqn:E;
      [eauto|].
    apply generate_prompt_missing_field_aux in E.
    apply List.Exists_exists in E as (d & Hin & Hd).
    rewrite List.Forall_forall in Hf. destruct (Hf d Hin) as [x Hx]. congruence. }
  destruct Hg as [prompt Hg]. exists prompt. split; [exact Hg|].
  unfold query, try_finally, bind at 1.
  destruct (retrieve_relevant_context self user_query default_limit
              default_distance_threshold t) as [r t1] eqn:Hrt.
  cbn [fst] in Hr. subst r.
  rewrite retrieve_run in Hrt. injection Hrt as _ <-.
  unfold bind, lift, emit, ret, get_completion. rewrite Hg. cbn.
  destruct (chat_completion self prompt); cbn; now rewrite <- !List.app_assoc.
Qed.

(** X8. A failure of the store ends [query] with the same exception: no
    prompt is printed, the completion API is not called, and the connection
    is closed. *)
Theorem query_store_failure (user_query : string) (t : list event) (e : exn) :
  near_vector self (encode self user_query) 100 [field] = Raise e ->
  query self user_query t
  = (Raise e,
     t ++ [EvNearVector (encode self user_query) 100 [field]; EvClose]).
Proof.
  intros Hn. unfold query, try_finally, bind at 1.
  rewrite retrieve_run, Hn. cbn. now rewrite <- List.app_assoc.
Qed.
End OrchestratorMore.

(** ** The filter on short texts and on echoes of the query *)

Section FilterMore.
Import PyStr PyStrFacts FilterRules.

Lemma token_count_flag (s : string) :
  (token_count_from true s <= token_count_from false s
   <= S (token_count_from true s))%nat.
Proof.
  destruct s as [|c s]; cbn [token_count_from]; [lia|].
  destruct (isspace c); lia.
Qed.

(** Taking characters away never makes more words. *)
Lemma subseq_token_count (r s : string) :
  subseq r s ->
  forall b, (token_count_from b r <= token_count_from b s)%nat.
Proof.
  induction 1 as [|c r s _ IH|c r s _ IH]; intros b.
  - lia.
  - cbn [token_count_from]. destruct (isspace c); [apply IH|].
    specialize (IH true). lia.
  - cbn [token_count_from]. destruct (isspace c).
    + pose proof (IH false). pose proof (token_count_flag r).
      destruct b; lia.
    + pose proof (IH true). pose proof (token_count_flag r).
      destruct b; cbn; lia.
Qed.

Lemma subseq_refl (s : string) : subseq s s.
Proof. induction s; constructor; assumption. Qed.

Lemma subseq_all_chars (p : ascii -> bool) (r s : string) :
  subseq r s -> all_chars p s = true -> all_chars p r = true.
Proof.
  induction 1 as [|c r s _ IH|c r s _ IH]; cbn [all_chars]; intros H.
  - reflexivity.
  - apply andb_true_iff in H as [-> H]. now apply IH.
  - apply andb_true_iff in H as [_ H]. now apply IH.
Qed.

(** Replacing by the empty string only takes characters away. *)
Lemma replace_from_subseq (old : string) (k : nat) (s : string) :
  subseq (replace_from old "" k s) s.
Proof.
  revert k. induction s as [|c s IH]; intros k; cbn [replace_from].
  - constructor.
  - destruct k as [|k]; [|constructor; apply IH].
    destruct (String.prefix old (String c s)).
    + cbn [String.append]. constructor. apply IH.
    + constructor. apply IH.
Qed.

Lemma replace_subseq (old s : string) : subseq (replace old "" s) s.
Proof.
  destruct old as [|c old]; cbn [replace].
  - rewrite intersperse_empty. apply subseq_refl.
  - apply replace_from_subseq.
Qed.

(** Lower-casing keeps the whitespace where it is. *)
Lemma lower_char_isspace (c : ascii) : isspace (lower_char c) = isspace c.
Proof. destruct c as [[] [] [] [] [] [] [] []]; reflexivity. Qed.

Lemma lower_token_count (s : string) (b : bool) :
  token_count_from b (lower s) = token_count_from b s.
Proof.
  revert b. induction s as [|c s IH]; intros b; [reflexivity|].
  cbn [lower token_count_from]. rewrite lower_char_isspace.
  destruct (isspace c); now rewrite IH.
Qed.

Lemma residual_token_count (text query : string) :
  (length (split (residual text query)) <= length (split text))%nat.
Proof.
  rewrite <- !token_count_correct. unfold token_count, residual.
  rewrite <- (lower_token_count text false).
  apply subseq_token_count, replace_subseq.
Qed.

(** X9. A text of fewer than five whitespace-separated words is rejected for
    every query: removing the query from it cannot make more words. *)
Theorem short_text_rejected (text query : string) :
  (length (split text) < 5)%nat ->
  is_informative_content text query = false.
Proof.
  intros H. rewrite is_informative_content_tests.
  pose proof (residual_token_count text query) as Hr.
  assert (E : (length (split (residual text query)) <? 5)%nat = true)
    by (apply Nat.ltb_lt; lia).
  now rewrite E.
Qed.

(** X9, an instance: four words, for a query that is not in the text. *)
Lemma short_text_rejected_example :
  (length (split "see you there tonight") < 5)%nat
  /\ is_informative_content "see you there tonight" "is it raining" = false.
Proof.
  split; [vm_compute; lia|].
  apply (short_text_rejected "see you there tonight" "is it raining").
  vm_compute. lia.
Defined.

(** Behind an occurrence that is passed over the scan goes on as from the
    start. *)
Lemma replace_from_skip (old new a s : string) :
  replace_from old new (String.length a) (a +:+ s) = replace_from old new 0 s.
Proof. induction a as [|c a IH]; cbn; [now destruct s | exact IH]. Qed.

Lemma replace_leading (old s : string) :
  replace old "" (old +:+ s) = replace old "" s.
Proof.
  destruct old as [|c old]; [reflexivity|].
  cbn [replace String.append replace_from].
  change (String c (old +:+ s)) with (String c old +:+ s).
  rewrite prefix_app.
  replace (String.length (String c old) - 1)%nat with (String.length old)
    by (cbn [String.length]; lia).
  apply replace_from_skip.
Qed.

Lemma no_space_in_word (s : string) :
  all_chars (fun c => negb (isspace c)) s = true ->
  token_count_from true s = 0%nat.
Proof.
  induction s as [|c s IH]; cbn; [reflexivity|].
  intros H. apply andb_true_iff in H as [Hc H]. apply negb_true_iff in Hc.
  now rewrite Hc, IH.
Qed.

Lemma no_space_token_count (s : string) (b : bool) :
  all_chars (fun c => negb (isspace c)) s = true ->
  (token_count_from b s <= 1)%nat.
Proof.
  intros H. pose proof (no_space_in_word s H).
  pose proof (token_count_flag s). destruct b; lia.
Qed.

Lemma all_chars_impl (p q : ascii -> bool) (s : string) :
  (forall c, p c = true -> q c = true) ->
  all_chars p s = true -> all_chars q s = true.
Proof.
  intros Hpq. induction s as [|c s IH]; cbn; [reflexivity|].
  intros H. apply andb_true_iff in H as [Hc H]. now rewrite (Hpq c Hc), IH.
Qed.

(** X10. A text that is the query up to case and up to trailing question
    marks is rejected, however long it is: what is left of it without the
    query is at most one word of question marks. *)
Theorem echo_rejected (text query : string) :
  rstrip "?" (lower text) = rstrip "?" (lower query) ->
  is_informative_content text query = false.
Proof.
  intros H. rewrite is_informative_content_tests.
  assert (E : (length (split (residual text query)) <? 5)%nat = true);
    [|now rewrite E].
  apply Nat.ltb_lt. rewrite <- token_count_correct. unfold residual.
  rewrite <- H. unfold rstrip.
  destruct (rstrip_by_decompose (fun c => char_in c "?") (lower text))
    as [w [Hw Hq]].
  rewrite Hw at 2. rewrite replace_leading.
  assert (Hs : all_chars (fun c => negb (isspace c)) w = true).
  { eapply all_chars_impl; [|exact Hq]. intros c Hc. cbn in Hc.
    rewrite orb_false_r in Hc. apply Ascii.eqb_eq in Hc. now subst c. }
  pose proof (subseq_all_chars _ _ _
                (replace_subseq
                   (rstrip_by (fun c => char_in c "?") (lower text)) w) Hs)
    as Hr.
  pose proof (no_space_token_count _ false Hr). unfold token_count. lia.
Qed.

(** X10, an instance: the query of seven words with two question marks and
    other capitals. *)
Lemma echo_rejected_example :
  rstrip "?" (lower "Is it raining outside TODAY or not??")
  = rstrip "?" (lower "is it raining outside today or not")
  /\ is_informative_content "Is it raining outside TODAY or not??"
       "is it raining outside today or not" = false.
Proof.
  split; [reflexivity|].
  apply (echo_rejected "Is it raining outside TODAY or not??"
           "is it raining outside today or not").
  reflexivity.
Defined.
End FilterMore.


(** ** Indexing a chat file *)

Section IndexingFacts.
Variable self : Indexing.Indexer.
Import Indexing.
Local Open Scope list_scope.

Lemma parse_message_returns (model_encode : string -> result (list spec_float))
      (line : string) :
  exists parsed, parse_message model_encode line = Ok parsed.
Proof.
  unfold parse_message.
  destruct (match_groups line) as [[[[d t] s] c]|]; [|eauto].
  destruct (Strptime.strptime _); [|eauto].
  destruct (model_encode c); eauto.
Qed.

(** With nothing pending, a line adds one insertion when it gives a message
    and changes nothing otherwise, and nothing is pending behind it. *)
Lemma index_line_nothing_pending (st : loop_state) (raw : string) :
  objects_to_insert st = [] ->
  index_line self st raw
  = Ok match message_of self raw with
       | Some message =>
           {| objects_to_insert := [];
              total_processed := total_processed st + 1;
              calls := calls st ++ [insert_call self message] |}
       | None => st
       end.
Proof.
  intros Hst. unfold index_line, message_of.
  destruct (skipped (PyStr.strip raw)); [reflexivity|].
  destruct (parse_message_returns (ix_encode self) (PyStr.strip raw))
    as [[message|] ->].
  - rewrite Hst. reflexivity.
  - rewrite Hst. reflexivity.
Qed.

(** No line ends the loop: it goes through all the lines that the file
    yields. *)
Lemma index_lines_nothing_pending (lines : list string) (st : loop_state) :
  objects_to_insert st = [] ->
  index_lines self st lines
  = ({| objects_to_insert := [];
        total_processed :=
          total_processed st + Z.of_nat (length (messages_of self lines));
        calls := calls st ++ map (insert_call self) (messages_of self lines) |},
     None).
Proof.
  revert st. induction lines as [|raw rest IH]; intros st Hst;
    cbn [index_lines messages_of].
  - destruct st as [o n c]. cbn in *. subst o.
    now rewrite Z.add_0_r, app_nil_r.
  - rewrite (index_line_nothing_pending st raw Hst).
    destruct (message_of self raw) as [message|].
    + rewrite IH by reflexivity. cbn [total_processed calls length map].
      rewrite <- List.app_assoc. do 2 f_equal. lia.
    + now apply IH.
Qed.

(** [index_chat] once the file is open and the collection is there. *)
Lemma index_chat_run_opened (filepath : string) (file : opened_file)
      (u : unit) :
  ix_open self filepath = Ok file ->
  ix_collection self = Ok u ->
  index_chat_run self filepath
  = (match file_error file with
     | Some e => Raise e
     | None =>
         Ok {| objects_to_insert := [];
               total_processed :=
                 Z.of_nat (length (messages_of self (file_lines file)));
               calls := map (insert_call self)
                            (messages_of self (file_lines file)) |}
     end,
     map (insert_call self) (messages_of self (file_lines file))).
Proof.
  intros Ho Hc. unfold index_chat_run. rewrite Ho, Hc.
  rewrite (index_lines_nothing_pending (file_lines file) initial_state eq_refl).
  now destruct (file_error file).
Qed.

(** X11. When the file opens and the collection is there, [index_chat] calls
    [insert] once for every line that the file yields and that, stripped, is
    not empty, does not hold the encryption notice and parses as a message,
    in the order of the file, with the content, sender and timestamp of the
    message as properties and its embedding as vector; when the file is read
    to its end, [index_chat] returns and [total_processed] counts these
    calls. *)
Theorem index_chat_inserts_messages (filepath : string) (file : opened_file)
        (u : unit) :
  ix_open self filepath = Ok file ->
  ix_collection self = Ok u ->
  snd (index_chat_run self filepath)
  = map (insert_call self) (messages_of self (file_lines file))
  /\ (file_error file = None ->
      index_chat self filepath
      = Ok {| objects_to_insert := [];
              total_processed :=
                Z.of_nat (length (messages_of self (file_lines file)));
              calls := map (insert_call self)
                           (messages_of self (file_lines file)) |}).
Proof.
  intros Ho Hc. unfold index_chat.
  rewrite (index_chat_run_opened filepath file u Ho Hc). cbn [fst snd].
  split; [reflexivity|]. now intros ->.
Qed.

(** X12. [insert_many] is never called: whatever the file holds, every call
    of the store is a single [insert], and no object is pending at the end
    of [index_chat]. *)
Theorem index_chat_never_batches (filepath : string) (st : loop_state) :
  index_chat self filepath = Ok st ->
  objects_to_insert st = []
  /\ Forall (fun call => exists properties vector outcome,
                 call = CallInsert properties vector outcome) (calls st).
Proof.
  unfold index_chat, index_chat_run.
  destruct (ix_open self filepath) as [file|e]; [|discriminate].
  destruct (ix_collection self) as [u|e]; [|discriminate].
  rewrite (index_lines_nothing_pending (file_lines file) initial_state eq_refl).
  destruct (file_error file); [discriminate|].
  intros [= <-]. cbn. split; [reflexivity|].
  apply List.Forall_forall. intros call Hin.
  apply in_map_iff in Hin as (message & <- & _). unfold insert_call. eauto.
Qed.

(** X13. A failing insertion does not end the indexing.  What [index_chat]
    raises is what opening the file raises; or, the file being open, what
    getting the collection raises, before any line is read; or, the
    collection being there, what reading or decoding the file raises in the
    loop, and then the messages of the lines read before it are inserted
    already.  Whatever [insert] does. *)
Theorem index_chat_raise_origin (filepath : string) (e : exn) :
  index_chat self filepath = Raise e ->
  (ix_open self filepath = Raise e
   /\ snd (index_chat_run self filepath) = [])
  \/ exists file,
       ix_open self filepath = Ok file
       /\ ((ix_collection self = Raise e
            /\ snd (index_chat_run self filepath) = [])
           \/ ((exists u, ix_collection self = Ok u)
               /\ file_error file = Some e
               /\ snd (index_chat_run self filepath)
                  = map (insert_call self)
                        (messages_of self (file_lines file)))).
Proof.
  unfold index_chat.
  destruct (ix_open self filepath) as [file|e1] eqn:Ho.
  - destruct (ix_collection self) as [u|e2] eqn:Hc.
    + rewrite (index_chat_run_opened filepath file u Ho Hc). cbn [fst snd].
      destruct (file_error file) as [e3|] eqn:Hf; [|discriminate].
      intros [= ->]. right. exists file. split; [reflexivity|]. right.
      rewrite Hf. eauto.
    + unfold index_chat_run. rewrite Ho, Hc. cbn [fst snd].
      intros [= ->]. right. exists file. split; [reflexivity|]. now left.
  - unfold index_chat_run. rewrite Ho. cbn [fst snd]. intros [= ->]. now left.
Qed.
End IndexingFacts.

Section IndexingExamples.
Import Indexing.

(** X11, an instance: of the five lines of the example file the notice, the
    continuation line and the blank line give nothing, the two messages are
    inserted in order although the store refuses both. *)
Lemma index_chat_inserts_messages_example :
  ix_open example_indexer "chat.txt"
  = Ok {| file_lines := example_lines; file_error := None |}
  /\ ix_collection example_indexer = Ok tt
  /\ map sender (messages_of example_indexer example_lines)
     = ["Alice Smith"; "Bob"]
  /\ index_chat example_indexer "chat.txt"
     = Ok {| objects_to_insert := [];
             total_processed := 2;
             calls := map (insert_call example_indexer)
                          (messages_of example_indexer example_lines) |}.
Proof.
  split; [reflexivity|]. split; [reflexivity|]. split; [reflexivity|].
  exact (proj2 (index_chat_inserts_messages example_indexer "chat.txt"
                  {| file_lines := example_lines; file_error := None |}
                  tt eq_refl eq_refl) eq_refl).
Defined.

(** X12, an instance. *)
Lemma index_chat_never_batches_example :
  exists st,
    index_chat example_indexer "chat.txt" = Ok st
    /\ objects_to_insert st = [].
Proof.
  eexists. split; [vm_compute; reflexivity|].
  refine (proj1 (index_chat_never_batches example_indexer "chat.txt" _ _)).
  vm_compute. reflexivity.
Defined.

(** X13, an instance: a file whose third line cannot be decoded; the message
    of the second line is inserted before the loop ends. *)
Lemma index_chat_raise_origin_example :
  index_chat example_indexer_bad_bytes "chat.txt"
  = Raise (ValueError "'utf-8' codec can't decode byte")
  /\ map (fun call => match call with
                      | CallInsert properties _ _ => properties !! "sender"
                      | CallInsertMany _ _ => None
                      end)
         (snd (index_chat_run example_indexer_bad_bytes "chat.txt"))
     = [Some "Alice Smith"].
Proof.
  split; [reflexivity|].
  destruct (index_chat_raise_origin example_indexer_bad_bytes "chat.txt"
              (ValueError "'utf-8' codec can't decode byte") eq_refl)
    as [[H _]|(file & Ho & [[H _]|(_ & _ & ->)])];
    [discriminate H | discriminate H |].
  injection Ho as <-. vm_compute. reflexivity.
Defined.
End IndexingExamples.


(** ** The records of the parser *)

Section RecordFacts.
Variable model_encode : string -> result (list spec_float).
Import PyStr PyStrFacts Re ReFacts.
Local Open Scope list_scope.

Lemma lstrip_by_idem (p : ascii -> bool) (s : string) :
  lstrip_by p (lstrip_by p s) = lstrip_by p s.
Proof.
  induction s as [|c s IH]; [reflexivity|].
  cbn [lstrip_by]. destruct (p c) eqn:E; [exact IH|].
  cbn [lstrip_by]. now rewrite E.
Qed.

Lemma rstrip_by_idem (p : ascii -> bool) (s : string) :
  rstrip_by p (rstrip_by p s) = rstrip_by p s.
Proof.
  induction s as [|c s IH]; [reflexivity|].
  cbn [rstrip_by]. destruct (rstrip_by p s) as [|d r] eqn:E.
  - destruct (p c) eqn:Hc; [reflexivity|]. cbn [rstrip_by]. now rewrite Hc.
  - change (rstrip_by p (String c (String d r)))
      with (match rstrip_by p (String d r) with
            | EmptyString => if p c then EmptyString else String c EmptyString
            | String _ _ as r' => String c r'
            end).
    now rewrite IH.
Qed.

(** The two one-sided strips commute. *)
Lemma rstrip_lstrip (p : ascii -> bool) (s : string) :
  rstrip_by p (lstrip_by p s) = lstrip_by p (rstrip_by p s).
Proof.
  induction s as [|c s IH]; [reflexivity|].
  cbn [lstrip_by rstrip_by]. destruct (p c) eqn:Hc.
  - rewrite IH. destruct (rstrip_by p s) as [|d r]; [reflexivity|].
    cbn [lstrip_by]. now rewrite Hc.
  - cbn [rstrip_by]. destruct (rstrip_by p s); cbn [lstrip_by]; now rewrite Hc.
Qed.

Lemma strip_idem (s : string) : strip (strip s) = strip s.
Proof.
  unfold strip.
  now rewrite rstrip_lstrip, rstrip_by_idem, lstrip_by_idem.
Qed.

Lemma strip_all_chars (p : ascii -> bool) (s : string) :
  all_chars p s = true -> all_chars p (strip s) = true.
Proof.
  unfold strip. intros H.
  destruct (rstrip_by_decompose isspace s) as [w [Hw _]].
  destruct (lstrip_by_decompose isspace (rstrip_by isspace s)) as [v [Hv _]].
  rewrite Hw, Hv, !all_chars_app in H.
  apply andb_true_iff in H as [H _]. now apply andb_true_iff in H as [_ H].
Qed.

Lemma all_chars_excludes (c : ascii) (s : string) :
  all_chars (fun d => negb (Ascii.eqb d c)) s = true ->
  contains (String c "") s = false.
Proof.
  rewrite contains_char. induction s as [|d s IH]; [reflexivity|].
  cbn [all_chars char_in]. intros H. apply andb_true_iff in H as [Hd H].
  apply negb_true_iff in Hd. rewrite Ascii.eqb_sym, Hd. now apply IH.
Qed.

(** The sender and the content that the pattern captures. *)
Lemma match_groups_classes (line date time snd cnt : string) :
  match_groups line = Some (date, time, snd, cnt) ->
  all_chars not_colon snd = true /\ all_chars dot cnt = true.
Proof.
  unfold match_groups.
  destruct (match_seq pattern line) as [chunks|] eqn:E; [|discriminate].
  apply match_seq_sound in E as [Hf _]. unfold pattern in Hf.
  repeat match goal with
         | H : Forall2 _ (_ :: _) _ |- _ =>
             apply Forall2_cons_inv_l in H as (? & ? & ? & H & ->)
         | H : Forall2 _ [] _ |- _ => apply Forall2_nil_inv_l in H as ->
         end.
  intros [= _ _ <- <-].
  repeat match goal with
         | H : conforms (plus _) _ |- _ => destruct H as (? & _ & _)
         end.
  now split.
Qed.

(** X14. Every record that [parse_message] returns is clean: its timestamp
    is the ISO form of a date of the calendar between 1969 and 2068 with a
    time of the day, its sender has no colon and its content no line feed,
    neither has whitespace at its ends, and its embedding is what the
    embedding model returned for the content before trimming. *)
Theorem parse_message_record (line : string) (record : ParsedMessage) :
  parse_message model_encode line = Ok (Some record) ->
  (exists dt,
      timestamp record = Strptime.isoformat dt
      /\ (1969 <= year dt <= 2068)%Z
      /\ (1 <= month dt <= 12)%Z
      /\ (1 <= day dt <= Strptime.days_in_month (year dt) (month dt))%Z
      /\ (0 <= hour dt <= 23)%Z
      /\ (0 <= minute dt <= 59)%Z)
  /\ strip (sender record) = sender record
  /\ contains ":" (sender record) = false
  /\ strip (content record) = content record
  /\ contains nl (content record) = false
  /\ exists untrimmed,
       content record = strip untrimmed
       /\ model_encode untrimmed = Ok (embedding record).
Proof.
  unfold parse_message.
  destruct (match_groups line) as [[[[date time] snd] cnt]|] eqn:E;
    [|discriminate].
  destruct (Strptime.strptime _) as [dt|e] eqn:Et; [|discriminate].
  destruct (model_encode cnt) as [v|e] eqn:Ev; [|discriminate].
  intros [= <-]. cbn [timestamp sender content embedding].
  destruct (match_groups_classes _ _ _ _ _ E) as [Hs Hc].
  split; [|repeat split].
  - exists dt. split; [reflexivity|].
    now apply StrptimeFacts.strptime_calendar in Et.
  - apply strip_idem.
  - apply (all_chars_excludes ":"). now apply strip_all_chars.
  - apply strip_idem.
  - apply (all_chars_excludes (ascii_of_nat 10)). now apply strip_all_chars.
  - exists cnt. now split.
Qed.
End RecordFacts.

Section RecordExamples.

(** X14, an instance: the record of the example line. *)
Lemma parse_message_record_example :
  parse_message (fun _ => Ok [])
    "12/31/23, 23:59 - Alice Smith: Happy new year: see you soon "
  = Ok (Some {| timestamp := "2023-12-31T23:59:00";
                sender := "Alice Smith";
                content := "Happy new year: see you soon";
                embedding := [] |})
  /\ PyStr.contains ":" "Alice Smith" = false
  /\ PyStr.strip "Happy new year: see you soon"
     = "Happy new year: see you soon".
Proof.
  split; [reflexivity|].
  destruct (parse_message_record (fun _ => Ok [])
              "12/31/23, 23:59 - Alice Smith: Happy new year: see you soon "
              _ eq_refl)
    as (_ & _ & Hs & Hc & _).
  split; [exact Hs | exact Hc].
Defined.
End RecordExamples.


(** ** The further properties on the example stores *)

Section MoreExamples.
Import PyStr PyList PyFloat.
Local Open Scope list_scope.

Abbreviation example_trace := [EvNearVector [] 100 ["content"]].

(** X1, an instance. *)
Lemma retrieve_only_informative_example :
  retrieve_relevant_context example_system "is it raining" 7 f0_75 []
  = (Ok example_retrieved, example_trace)
  /\ Forall (fun doc => In doc example_objects) example_retrieved.
Proof.
  split; [vm_compute; reflexivity|].
  destruct (retrieve_only_informative example_system "is it raining" 7 f0_75
              [] example_trace example_retrieved)
    as (objects & Ho & Hf); [vm_compute; reflexivity|].
  injection Ho as <-.
  eapply Forall_impl; [exact Hf|]. now intros doc [Hin _].
Defined.

(** X2, an instance: with the limit 1 the closer of the two kept messages is
    returned. *)
Lemma retrieve_closest_example :
  (0 <= 1)%Z
  /\ retrieve_relevant_context example_system "is it raining" 1 f0_75 []
     = (Ok (firstn 1 example_retrieved), example_trace)
  /\ Z.of_nat (length (firstn 1 example_retrieved))
     = Z.min 1 (Z.of_nat (length (List.filter
                                    (kept example_system "is it raining" f0_75)
                                    example_objects))).
Proof.
  split; [lia|]. split; [vm_compute; reflexivity|].
  refine (proj1 (retrieve_closest example_system "is it raining" 1 f0_75 []
                   example_trace (firstn 1 example_retrieved) example_objects
                   _ eq_refl _));
    [lia | vm_compute; reflexivity].
Defined.

(** X3, an instance: the closest object has no ["content"]; the farthest has
    none either, but it is beyond the threshold. *)
Lemma retrieve_missing_field_example :
  near_vector example_store_unkeyed [] 100 ["content"]
  = Ok example_objects_unkeyed
  /\ fst (retrieve_relevant_context example_store_unkeyed "is it raining" 7
            f0_75 []) = Raise (KeyError "content").
Proof.
  split; [reflexivity|].
  refine (proj1 (retrieve_missing_field example_store_unkeyed "is it raining"
                   7 f0_75 [] example_objects_unkeyed eq_refl) _).
  apply Exists_cons_tl, Exists_cons_hd. split; reflexivity.
Defined.

(** X4, an instance. *)
Lemma retrieve_nan_threshold_example :
  is_nan S754_nan = true
  /\ fst (retrieve_relevant_context example_system "is it raining" 7 S754_nan
            []) = Ok [].
Proof.
  split; [reflexivity|].
  exact (retrieve_nan_threshold example_system "is it raining" 7 S754_nan []
           example_objects eq_refl eq_refl).
Defined.

(** X5, an instance: the limits 1 and 7. *)
Lemma retrieve_limit_prefix_example :
  (0 <= 1 <= 7)%Z
  /\ retrieve_relevant_context example_system "is it raining" 1 f0_75 []
     = (Ok (firstn 1 example_retrieved), example_trace).
Proof.
  split; [lia|].
  refine (retrieve_limit_prefix example_system "is it raining" 1 7 f0_75 []
            example_trace example_retrieved _ _);
    [lia | vm_compute; reflexivity].
Defined.

(** X6, an instance: a context with a message without ["content"]. *)
Lemma generate_prompt_missing_field_example :
  generate_prompt example_store_unkeyed "is it raining" example_objects_unkeyed
  = Raise (KeyError "content").
Proof.
  refine (proj1 (generate_prompt_missing_field example_store_unkeyed
                   "is it raining" example_objects_unkeyed) _).
  apply Exists_cons_tl, Exists_cons_hd. reflexivity.
Defined.

(** X7, an instance: the completion API is down, and [query] raises what it
    raises. *)
Lemma query_completes_with_built_prompt_example :
  fst (retrieve_relevant_context example_api_down "is it raining"
         default_limit default_distance_threshold []) = Ok example_retrieved
  /\ fst (query example_api_down "is it raining" [])
     = Raise (ExternalError "rate limit exceeded").
Proof.
  split; [vm_compute; reflexivity|].
  destruct (query_completes_with_built_prompt example_api_down "is it raining"
              [] _ _ (eq_refl : fst (retrieve_relevant_context example_api_down
                                       "is it raining" default_limit
                                       default_distance_threshold [])
                                = Ok example_retrieved))
    as (prompt & _ & Hq).
  now rewrite Hq.
Defined.

(** X8, an instance: the store is down. *)
Lemma query_store_failure_example :
  near_vector example_store_down [] 100 ["content"]
  = Raise (ExternalError "connection refused")
  /\ query example_store_down "is it raining" []
     = (Raise (ExternalError "connection refused"),
        [EvNearVector [] 100 ["content"]; EvClose]).
Proof.
  split; [reflexivity|].
  exact (query_store_failure example_store_down "is it raining" []
           (ExternalError "connection refused") eq_refl).
Defined.
End MoreExamples.

(** ** Ties, and the order of the texts in the prompt *)

Module TieFacts.
Import PyFloat PyFloatFacts PyList PyListFacts.
Local Open Scope list_scope.

Lemma lt_le_trans (a b c : spec_float) :
  lt a b = true -> le b c = true -> lt a c = true.
Proof.
  unfold lt, le, SFltb, SFleb.
  destruct a as [s1|s1| |s1 m1 e1], b as [s2|s2| |s2 m2 e2],
    c as [s3|s3| |s3 m3 e3]; cbn;
    try discriminate; try reflexivity;
    try (destruct s1; cbn; (discriminate || reflexivity));
    try (destruct s2; cbn; (discriminate || reflexivity));
    try (destruct s3; cbn; (discriminate || reflexivity));
    try (destruct s1, s2; cbn; (discriminate || reflexivity));
    try (destruct s1, s3; cbn; (discriminate || reflexivity));
    try (destruct s2, s3; cbn; (discriminate || reflexivity));
    try (destruct s1, s2, s3; cbn; (discriminate || reflexivity)).
  change (Pos.compare_cont Eq m1 m2) with (m1 ?= m2)%positive.
  change (Pos.compare_cont Eq m2 m3) with (m2 ?= m3)%positive.
  change (Pos.compare_cont Eq m1 m3) with (m1 ?= m3)%positive.
  destruct s1, s2, s3; cbn; try discriminate; try reflexivity;
    destruct (Z.compare_spec e1 e2), (Z.compare_spec e2 e3),
      (Z.compare_spec e1 e3); cbn; try discriminate; try reflexivity;
      try lia; subst;
    destruct (Pos.compare_spec m1 m2), (Pos.compare_spec m2 m3),
      (Pos.compare_spec m1 m3); cbn; try discriminate; try reflexivity; lia.
Qed.

(** A float that is less than another is not equal to what the other is
    equal to. *)
Lemma lt_not_same (a c k : spec_float) :
  lt a c = true -> SFeqb a k = true -> SFeqb c k = false.
Proof.
  unfold lt, SFltb, SFeqb.
  destruct a as [s1|s1| |s1 m1 e1], c as [s2|s2| |s2 m2 e2],
    k as [s3|s3| |s3 m3 e3]; cbn;
    try discriminate; try reflexivity;
    try (destruct s1; cbn; (discriminate || reflexivity));
    try (destruct s2; cbn; (discriminate || reflexivity));
    try (destruct s3; cbn; (discriminate || reflexivity));
    try (destruct s1, s2; cbn; (discriminate || reflexivity));
    try (destruct s1, s3; cbn; (discriminate || reflexivity));
    try (destruct s2, s3; cbn; (discriminate || reflexivity));
    try (destruct s1, s2, s3; cbn; (discriminate || reflexivity)).
  change (Pos.compare_cont Eq m1 m2) with (m1 ?= m2)%positive.
  change (Pos.compare_cont Eq m2 m3) with (m2 ?= m3)%positive.
  change (Pos.compare_cont Eq m1 m3) with (m1 ?= m3)%positive.
  destruct s1, s2, s3; cbn; try discriminate; try reflexivity;
    destruct (Z.compare_spec e1 e2), (Z.compare_spec e2 e3),
      (Z.compare_spec e1 e3); cbn; try discriminate; try reflexivity;
      try lia; subst;
    destruct (Pos.compare_spec m1 m2), (Pos.compare_spec m2 m3),
      (Pos.compare_spec m1 m3); cbn; try discriminate; try reflexivity; lia.
Qed.

Section Stable.
Context {A : Type} (key : A -> spec_float) (k : spec_float).

Abbreviation at_k := (fun x : A => SFeqb (key x) k).

(** Behind an element that is greater than [x] nothing is at the key of
    [x]. *)
Lemma nothing_at_k_behind (x y : A) (r : list A) :
  nondecreasing key (y :: r) -> lt (key x) (key y) = true ->
  SFeqb (key x) k = true -> List.filter at_k (y :: r) = [].
Proof.
  intros Hs Hlt Hx. apply StronglySorted_inv in Hs as [_ Hy].
  assert (Hall : Forall (fun z => lt (key x) (key z) = true) (y :: r)).
  { constructor; [exact Hlt|]. eapply Forall_impl; [exact Hy|].
    intros z Hz. cbn in Hz. now apply (lt_le_trans _ (key y)). }
  clear Hy Hlt. induction Hall as [|z l Hz _ IH]; [reflexivity|].
  cbn [List.filter]. now rewrite (lt_not_same _ _ _ Hz Hx).
Qed.

Lemma insert_by_stable (x : A) (acc : list A) :
  nondecreasing key acc ->
  List.filter at_k (insert_by key x acc)
  = List.filter at_k acc ++ (if SFeqb (key x) k then [x] else []).
Proof.
  induction acc as [|y r IH]; intros Hs; cbn [insert_by].
  - cbn [List.filter]. now destruct (SFeqb (key x) k).
  - destruct (lt (key x) (key y)) eqn:Hlt.
    + change (List.filter at_k (x :: y :: r))
        with (if SFeqb (key x) k then x :: List.filter at_k (y :: r)
              else List.filter at_k (y :: r)).
      destruct (SFeqb (key x) k) eqn:Hx.
      * now rewrite (nothing_at_k_behind x y r Hs Hlt Hx).
      * now rewrite app_nil_r.
    + cbn [List.filter]. apply StronglySorted_inv in Hs as [Hr _].
      rewrite (IH Hr). now destruct (SFeqb (key y) k).
Qed.

Lemma sorted_fold_stable (l acc : list A) :
  Forall (fun y => is_nan (key y) = false) l ->
  Forall (fun y => is_nan (key y) = false) acc ->
  nondecreasing key acc ->
  List.filter at_k (fold_left (fun acc x => insert_by key x acc) l acc)
  = List.filter at_k acc ++ List.filter at_k l.
Proof.
  revert acc. induction l as [|x l IH]; intros acc Hl Ha Hs; cbn [fold_left].
  - now rewrite app_nil_r.
  - apply Forall_cons_iff in Hl as [Hx Hl]. rewrite IH.
    + rewrite (insert_by_stable x acc Hs), <- List.app_assoc. f_equal.
      cbn [List.filter]. now destruct (SFeqb (key x) k).
    + exact Hl.
    + rewrite (insert_by_perm key x acc). now constructor.
    + now apply insert_by_nondecreasing.
Qed.

(** [sorted] is stable: the elements at one key keep their order. *)
Lemma sorted_stable (l : list A) :
  Forall (fun y => is_nan (key y) = false) l ->
  List.filter at_k (sorted key l) = List.filter at_k l.
Proof.
  intros H. apply (sorted_fold_stable l [] H); constructor.
Qed.
End Stable.

Lemma filter_firstn {A : Type} (f : A -> bool) (n : nat) (l : list A) :
  exists m, List.filter f (firstn n l) = firstn m (List.filter f l).
Proof.
  revert n. induction l as [|x l IH]; intros n.
  - exists 0%nat. now rewrite firstn_nil.
  - destruct n as [|n]; [now exists 0%nat|].
    destruct (IH n) as [m Hm]. cbn [firstn List.filter].
    destruct (f x); [exists (S m); cbn [firstn]; now rewrite Hm | now exists m].
Qed.

End TieFacts.

Section RetrieverOrder.
Variable self : RAGSystem.
Import PyStr PyStrFacts PyList PyListFacts PyFloat PyFloatFacts TieFacts.
Local Open Scope list_scope.

Abbreviation dist := doc_distance.
Abbreviation field := (embedding_field self).

(** X15. Ties keep the order of the store: for every distance, the returned
    messages at that distance are the first of the kept candidates at that
    distance, in the order in which the store answered them. *)
Theorem retrieve_ties_keep_store_order (query : string) (limit : Z)
        (thr k : spec_float) (t t' : list event) (docs objects : list Doc) :
  near_vector self (encode self query) 100 [field] = Ok objects ->
  retrieve_relevant_context self query limit thr t = (Ok docs, t') ->
  exists n,
    List.filter (fun doc => SFeqb (dist doc) k) docs
    = firstn n (List.filter (fun doc => SFeqb (dist doc) k)
                            (List.filter (kept self query thr) objects)).
Proof.
  intros Hn. rewrite retrieve_run, Hn.
  destruct (filter_results self query thr objects) as [c|e] eqn:Hk;
    [|discriminate].
  intros [= <- _]. apply filter_results_ok in Hk. subst c.
  set (cands := List.filter (kept self query thr) objects).
  assert (Hnan : Forall (fun doc => is_nan (dist doc) = false) cands).
  { apply List.Forall_forall. intros doc Hd. apply filter_In in Hd as [_ Hd].
    apply kept_within, le_not_nan in Hd. tauto. }
  destruct (slice_to_firstn limit (sorted dist cands)) as [n ->].
  destruct (filter_firstn (fun doc => SFeqb (dist doc) k) n (sorted dist cands))
    as [m Hm].
  exists m. now rewrite Hm, (sorted_stable dist k cands Hnan).
Qed.

Lemma retrieve_nondecreasing (query : string) (limit : Z) (thr : spec_float)
      (t : list event) (docs : list Doc) :
  fst (retrieve_relevant_context self query limit thr t) = Ok docs ->
  nondecreasing dist docs.
Proof.
  rewrite retrieve_run. cbn [fst].
  destruct (near_vector self _ _ _) as [objects|e]; [|discriminate].
  destruct (filter_results self query thr objects) as [c|e] eqn:Hk;
    [|discriminate].
  intros [= <-]. apply filter_results_ok in Hk. subst c.
  destruct (slice_to_firstn limit
              (sorted dist (List.filter (kept self query thr) objects)))
    as [n ->].
  apply nondecreasing_firstn, sorted_nondecreasing.
  apply List.Forall_forall. intros doc Hd. apply filter_In in Hd as [_ Hd].
  apply kept_within, le_not_nan in Hd. tauto.
Qed.

(** X16. The retriever and the prompt builder compose without reordering:
    for what the retriever returns, the second sort of [generate_prompt]
    changes nothing, and the context block of the prompt is the texts of the
    returned messages, in the returned order, joined by a blank line. *)
Theorem prompt_keeps_retrieved_order (query : string) (limit : Z)
        (thr : spec_float) (t : list event) (docs : list Doc) :
  fst (retrieve_relevant_context self query limit thr t) = Ok docs ->
  exists texts,
    contents_of self docs = Ok texts
    /\ generate_prompt self query docs
       = Ok (prompt_template (join (nl +:+ nl) texts) query).
Proof.
  intros Hr.
  destruct (contents_of_total self docs (retrieve_docs_have_field self _ _ _ _ _ Hr))
    as [texts Ht].
  exists texts. split; [exact Ht|].
  unfold generate_prompt.
  now rewrite (sorted_id dist docs (retrieve_nondecreasing _ _ _ _ _ Hr)), Ht.
Qed.
End RetrieverOrder.

Section OrderExamples.
Import PyStr PyList PyFloat.
Local Open Scope list_scope.

(** X15, an instance: the distance 0.25 on the example store. *)
Lemma retrieve_ties_keep_store_order_example :
  retrieve_relevant_context example_system "is it raining" 7 f0_75 []
  = (Ok example_retrieved, [EvNearVector [] 100 ["content"]])
  /\ exists n,
       List.filter (fun doc => SFeqb (doc_distance doc) f0_25) example_retrieved
       = firstn n (List.filter (fun doc => SFeqb (doc_distance doc) f0_25)
                     (List.filter (kept example_system "is it raining" f0_75)
                                  example_objects)).
Proof.
  split; [vm_compute; reflexivity|].
  refine (retrieve_ties_keep_store_order example_system "is it raining" 7
            f0_75 f0_25 [] [EvNearVector [] 100 ["content"]] example_retrieved
            example_objects eq_refl _).
  vm_compute. reflexivity.
Defined.

(** X16, an instance. *)
Lemma prompt_keeps_retrieved_order_example :
  fst (retrieve_relevant_context example_system "is it raining" 7 f0_75 [])
  = Ok example_retrieved
  /\ generate_prompt example_system "is it raining" example_retrieved
     = Ok (prompt_template
             (join (nl +:+ nl)
                   ["the weather was dry and sunny for the whole week";
                    "it rained heavily all night and flooded the street"])
             "is it raining").
Proof.
  assert (H : fst (retrieve_relevant_context example_system "is it raining" 7
                     f0_75 []) = Ok example_retrieved)
    by (vm_compute; reflexivity).
  split; [exact H|].
  destruct (prompt_keeps_retrieved_order example_system "is it raining" 7
              f0_75 [] example_retrieved H) as (texts & Ht & Hg).
  rewrite Hg. vm_compute in Ht. injection Ht as <-. reflexivity.
Defined.
End OrderExamples.
